(** * Traffic-lane vehicle detection pipeline: shallow embedding and proofs

    Sources embedded:
    - [backend/processor/process_video.py]: [run_yolo_inference],
      [simulate_processing] and the report built by [main];
    - [backend/processor/yolov4_detect.py]: [detect_cars] and the report
      built by its [__main__] block, together with the OpenCV routine
      [cv2.dnn.NMSBoxes] it calls.

    Python floats are modelled as exact rationals [Q]; [int(f)] on a float
    is truncation toward zero; [round(f, 2)] is round-half-to-even at two
    decimals.  Python dicts are association lists kept in insertion order
    (updating an existing key keeps its position).  Video I/O, drawing and
    the random generator are external: frames enter as lists of detections
    and random draws enter as explicit inputs. *)

From Stdlib Require Import ZArith QArith Qround List String Bool Lia Lqa Permutation.
Import ListNotations.
Open Scope string_scope.
Open Scope list_scope.
Open Scope Z_scope.

(* ================================================================= *)
(** ** Python numeric helpers *)

(** [int(q)] on a float: truncation toward zero. *)
Definition py_int (q : Q) : Z := Z.quot (Qnum q) (Zpos (Qden q)).

(** Strict comparison of rationals. *)
Definition Qltb (a b : Q) : bool := negb (Qle_bool b a).

(** Round half to even to an integer (Python's rounding rule). *)
Definition round_half_even (q : Q) : Z :=
  let f := Qfloor q in
  let r := (q - inject_Z f)%Q in
  if Qltb r (1#2) then f
  else if Qltb (1#2) r then f + 1
  else if Z.even f then f else f + 1.

(** [round(q, 2)]. *)
Definition round2 (q : Q) : Q :=
  Qred (inject_Z (round_half_even (q * 100)) / 100).

(** [a / b * 100] as Python evaluates it on numbers [a] and [b]. *)
Definition pct (a b : Q) : Q := (a / b * 100)%Q.

(* ================================================================= *)
(** ** Python dicts from labels to counts *)

Definition dict := list (string * nat).

(** [d.get(k, dflt)] *)
Fixpoint dict_get (k : string) (d : dict) (dflt : nat) : nat :=
  match d with
  | [] => dflt
  | (k', v) :: t => if String.eqb k k' then v else dict_get k t dflt
  end.

(** [k in d] *)
Fixpoint dict_mem (k : string) (d : dict) : bool :=
  match d with
  | [] => false
  | (k', _) :: t => String.eqb k k' || dict_mem k t
  end.

(** [d[k] = v]: an existing key keeps its position, a new key goes last. *)
Fixpoint dict_set (k : string) (v : nat) (d : dict) : dict :=
  match d with
  | [] => [(k, v)]
  | (k', v') :: t => if String.eqb k k' then (k', v) :: t else (k', v') :: dict_set k v t
  end.

(** [d.keys()] *)
Definition dict_keys (d : dict) : list string := map fst d.

(** [sum(d.values())] *)
Definition dict_sum (d : dict) : nat := list_sum (map snd d).

(* ================================================================= *)
(** ** Report data *)

Record bbox := mkBBox { top : Q; left : Q; width : Q; height : Q }.

Record sample := mkSample {
  s_label : string;
  s_confidence : Q;
  s_bbox : bbox }.

(** The aggregate threaded through every detection loop:
    [vehicle_counts], [total] and [sample_detections]. *)
Record agg := mkAgg {
  vehicle_counts : dict;
  total : nat;
  sample_detections : list sample }.

(** [if len(sample_detections) < 20: sample_detections.append(s)] *)
Definition push_sample (s : sample) (l : list sample) : list sample :=
  if Nat.ltb (List.length l) 20 then l ++ [s] else l.

(** ["green" if total >= 15 else "amber" if total >= 8 else "red"] *)
Definition phase_of (total : nat) : string :=
  if Nat.leb 15 total then "green" else if Nat.leb 8 total then "amber" else "red".

Record report := mkReport {
  r_lane : string;
  r_processed_video : string;
  r_vehicle_counts : dict;
  r_total_vehicles : nat;
  r_load_score : nat;
  r_phase : string;
  r_sample_detections : list sample }.

(* ================================================================= *)
(** ** [run_yolo_inference] (ultralytics model) *)

Module Ultra.

(** One entry of [result.boxes]: class index, confidence, [xyxy]. *)
Record ybox := mkYBox { cls : nat; conf : Q; x1 : Q; y1 : Q; x2 : Q; y2 : Q }.

(** One streamed result: [orig_img.shape[0]], [orig_img.shape[1]], boxes. *)
Record yresult := mkYResult { shape0 : Z; shape1 : Z; boxes : list ybox }.

(** The dict appended to [sample_detections] for [box] of result [r]. *)
Definition sample_of (names : nat -> string) (r : yresult) (box : ybox) : sample :=
  mkSample (names (cls box)) (round2 (conf box))
    (mkBBox (round2 (pct (y1 box) (inject_Z (shape0 r))))
            (round2 (pct (x1 box) (inject_Z (shape1 r))))
            (round2 (pct (x2 box - x1 box) (inject_Z (shape1 r))))
            (round2 (pct (y2 box - y1 box) (inject_Z (shape0 r))))).

(** Body of [for box in detections:] ([names] is [model.names]). *)
Definition box_step (names : nat -> string) (r : yresult) (st : agg) (box : ybox) : agg :=
  let label := names (cls box) in
  let counts := dict_set label (S (dict_get label (vehicle_counts st) 0)) (vehicle_counts st) in
  mkAgg counts (S (total st)) (push_sample (sample_of names r box) (sample_detections st)).

Definition frame_step (names : nat -> string) (st : agg) (r : yresult) : agg :=
  fold_left (box_step names r) (boxes r) st.

Definition run_yolo_inference (names : nat -> string) (results : list yresult) : agg :=
  fold_left (frame_step names) results (mkAgg [] 0 []).

End Ultra.

(* ================================================================= *)
(** ** [simulate_processing] (random fallback detector) *)

Module Sim.

(** The random draws made for one simulated box, in source order:
    [random.choice(list(vehicle_counts.keys()))] (as the chosen index),
    [random.uniform(0.55, 0.95)], [randint(40, 120)] twice, then
    [randint(0, max(0, width - w))] and [randint(0, max(0, height - h))]. *)
Record draw := mkDraw { d_choice : nat; d_u : Q; d_w : Z; d_h : Z; d_x : Z; d_y : Z }.

(** The ranges Python's [random] module guarantees for these draws. *)
Definition valid_draw (width height : Z) (d : draw) : bool :=
  Nat.ltb (d_choice d) 6 &&
  Qle_bool (55#100) (d_u d) && Qle_bool (d_u d) (95#100) &&
  Z.leb 40 (d_w d) && Z.leb (d_w d) 120 &&
  Z.leb 40 (d_h d) && Z.leb (d_h d) 120 &&
  Z.leb 0 (d_x d) && Z.leb (d_x d) (Z.max 0 (width - d_w d)) &&
  Z.leb 0 (d_y d) && Z.leb (d_y d) (Z.max 0 (height - d_h d)).

(** [boxes_per_frame = random.randint(1, 4)] draws per frame. *)
Definition valid_frame (width height : Z) (fr : list draw) : bool :=
  Nat.leb 1 (List.length fr) && Nat.leb (List.length fr) 4 &&
  forallb (valid_draw width height) fr.

Definition valid_frames (width height : Z) (frs : list (list draw)) : bool :=
  forallb (valid_frame width height) frs.

Definition init_counts : dict :=
  [("bicycle", 0%nat); ("bus", 0%nat); ("car", 0%nat);
   ("jeep", 0%nat); ("pedestrian", 0%nat); ("truck", 0%nat)].

(** [width = int(...) or 640], [height = int(...) or 360]. *)
Definition or_default (v dflt : Z) : Z := if Z.eqb v 0 then dflt else v.

(** The dict appended to [sample_detections] for a draw labelled [label];
    [confidence = round(random.uniform(0.55, 0.95), 2)] is stored as is. *)
Definition sample_of (width height : Z) (label : string) (d : draw) : sample :=
  let confidence := round2 (d_u d) in
  let w := d_w d in let h := d_h d in let x := d_x d in let y := d_y d in
  mkSample label confidence
    (mkBBox (round2 (pct (inject_Z y) (inject_Z height)))
            (round2 (pct (inject_Z x) (inject_Z width)))
            (round2 (pct (inject_Z w) (inject_Z width)))
            (round2 (pct (inject_Z h) (inject_Z height)))).

(** Body of [for _ in range(boxes_per_frame):]; [None] is the [KeyError]
    of [vehicle_counts[label] += 1]. *)
Definition draw_step (width height : Z) (st : agg) (d : draw) : option agg :=
  let label := nth (d_choice d) (dict_keys (vehicle_counts st)) ""%string in
  if dict_mem label (vehicle_counts st) then
    let counts := dict_set label (S (dict_get label (vehicle_counts st) 0)) (vehicle_counts st) in
    Some (mkAgg counts (S (total st)) (push_sample (sample_of width height label d) (sample_detections st)))
  else None.

Fixpoint frame_step (width height : Z) (st : agg) (fr : list draw) : option agg :=
  match fr with
  | [] => Some st
  | d :: fr' =>
      match draw_step width height st d with
      | Some st' => frame_step width height st' fr'
      | None => None
      end
  end.

Fixpoint frames_loop (width height : Z) (st : agg) (frs : list (list draw)) : option agg :=
  match frs with
  | [] => Some st
  | fr :: frs' =>
      match frame_step width height st fr with
      | Some st' => frames_loop width height st' frs'
      | None => None
      end
  end.

(** [simulate_processing]: [cap_w], [cap_h] are the frame sizes the capture
    reports; [frames] holds, per frame read, the draws made for it. *)
Definition simulate_processing (cap_w cap_h : Z) (frames : list (list draw)) : option agg :=
  let width := or_default cap_w 640 in
  let height := or_default cap_h 360 in
  frames_loop width height (mkAgg init_counts 0 []) frames.

End Sim.

(* ================================================================= *)
(** ** [main] of [process_video.py] *)

(** The JSON document written to stdout ([processed_at] omitted).  [None]
    is an exception raised by the processing call. *)
Definition main_report (lane processed_video : string) (yolo_available : bool)
    (names : nat -> string) (results : list Ultra.yresult)
    (cap_w cap_h : Z) (frames : list (list Sim.draw)) : option report :=
  let res := if yolo_available then Some (Ultra.run_yolo_inference names results)
             else Sim.simulate_processing cap_w cap_h frames in
  match res with
  | Some st =>
      Some (mkReport lane processed_video (vehicle_counts st) (total st)
              (dict_sum (vehicle_counts st)) (phase_of (total st))
              (sample_detections st))
  | None => None
  end.

(* ================================================================= *)
(** ** [cv2.dnn.NMSBoxes] (OpenCV greedy non-maximum suppression)

    OpenCV's [NMSBoxes] on integer rectangles with [eta = 1], [top_k = 0]:
    keep the indices whose score passes the score threshold, stable-sort
    them by descending score, then walk them in that order, accepting an
    index when its overlap with every index accepted so far is at most the
    overlap threshold.  The overlap is OpenCV's [rectOverlap], i.e.
    [1 - jaccardDistance]. *)

Module NMS.

Record rect := mkRect { rx : Z; ry : Z; rw : Z; rh : Z }.

Definition rect0 : rect := mkRect 0 0 0 0.

Definition area (r : rect) : Z := rw r * rh r.

(** [(a & b).area()] *)
Definition inter_area (a b : rect) : Z :=
  if (rw a <=? 0) || (rh a <=? 0) || (rw b <=? 0) || (rh b <=? 0) then 0 else
  let x1 := Z.max (rx a) (rx b) in
  let y1 := Z.max (ry a) (ry b) in
  let w := Z.min (rx a + rw a) (rx b + rw b) - x1 in
  let h := Z.min (ry a + rh a) (ry b + rh b) - y1 in
  if (w <=? 0) || (h <=? 0) then 0 else w * h.

(** [rectOverlap(a, b)]: intersection over union; [1] when both areas
    sum to at most [0] (OpenCV's [jaccardDistance] returns [0] there). *)
Definition rect_overlap (a b : rect) : Q :=
  let aa := area a in let ab := area b in
  if aa + ab <=? 0 then 1%Q
  else (inject_Z (inter_area a b) / inject_Z (aa + ab - inter_area a b))%Q.

(** Insert into a list sorted by descending score, after every entry of
    equal score (so the sort is stable). *)
Fixpoint insert_desc (p : nat * Q) (l : list (nat * Q)) : list (nat * Q) :=
  match l with
  | [] => [p]
  | q :: t => if Qltb (snd q) (snd p) then p :: q :: t else q :: insert_desc p t
  end.

Definition stable_sort_desc (l : list (nat * Q)) : list (nat * Q) :=
  fold_left (fun acc p => insert_desc p acc) l [].

(** [GetMaxScoreIndex]: (index, score) pairs passing [keep], best first. *)
Definition max_score_index (keep : Q -> bool) (scores : list Q) : list (nat * Q) :=
  stable_sort_desc
    (filter (fun p => keep (snd p)) (combine (seq 0 (List.length scores)) scores)).

(** The greedy pass; [kept] are the indices accepted so far, in order. *)
Fixpoint greedy (thr : Q) (boxes : list rect) (kept : list nat) (l : list (nat * Q)) : list nat :=
  match l with
  | [] => kept
  | p :: t =>
      if forallb (fun k => Qle_bool (rect_overlap (nth (fst p) boxes rect0) (nth k boxes rect0)) thr) kept
      then greedy thr boxes (kept ++ [fst p]) t
      else greedy thr boxes kept t
  end.

Definition nms_with (keep : Q -> bool) (thr : Q) (boxes : list rect) (scores : list Q) : list nat :=
  greedy thr boxes [] (max_score_index keep scores).

(** [cv2.dnn.NMSBoxes(boxes, scores, score_threshold, nms_threshold)]:
    OpenCV keeps scores strictly above the score threshold. *)
Definition NMSBoxes (boxes : list rect) (scores : list Q) (score_threshold nms_threshold : Q) : list nat :=
  nms_with (fun s => Qltb score_threshold s) nms_threshold boxes scores.

(** [i in indexes] *)
Definition idx_in (i : nat) (indexes : list nat) : bool := existsb (Nat.eqb i) indexes.

End NMS.

(* ================================================================= *)
(** ** [detect_cars] of [yolov4_detect.py] (OpenCV DNN detector) *)

Module Yolo4.
Import NMS.

(** One output row of the network: [detection[0:4]] (centre and size as
    fractions of the frame) and the class scores [detection[5:]] (never
    empty: the first score is kept apart). *)
Record raw := mkRaw { cx : Q; cy : Q; bw : Q; bh : Q; score0 : Q; scores_rest : list Q }.

(** A frame read: [frame.shape] gives [height_frame], [width_frame]; [rows]
    are the rows of all output layers, in order. *)
Record frame := mkFrame { height_frame : Z; width_frame : Z; rows : list raw }.

(** [np.argmax]: index of the first maximal score. *)
Fixpoint argmax_from (i best_i : nat) (best : Q) (l : list Q) : nat :=
  match l with
  | [] => best_i
  | s :: t => if Qltb best s then argmax_from (S i) i s t else argmax_from (S i) best_i best t
  end.

Definition scores (d : raw) : list Q := score0 d :: scores_rest d.

Definition argmax (d : raw) : nat := argmax_from 1 0 (score0 d) (scores_rest d).

Definition vehicle_labels : list string := ["car"; "bus"; "truck"; "motorbike"].

Definition str_in (s : string) (l : list string) : bool := existsb (String.eqb s) l.

(** Body of [for detection in out:]: the box, confidence and class id
    appended, or [None] when the row is skipped.  (The NaN/inf guard never
    fires on rationals.) *)
Definition candidate (classes : list string) (fr : frame) (d : raw) : option (rect * Q * nat) :=
  let class_id := argmax d in
  let confidence := nth class_id (scores d) 0%Q in
  if Nat.ltb class_id (List.length classes)
     && str_in (nth class_id classes "") vehicle_labels
     && Qltb (1#2) confidence then
    let center_x := py_int (cx d * inject_Z (width_frame fr)) in
    let center_y := py_int (cy d * inject_Z (height_frame fr)) in
    let w := py_int (bw d * inject_Z (width_frame fr)) in
    let h := py_int (bh d * inject_Z (height_frame fr)) in
    let x := py_int (inject_Z center_x - inject_Z w / 2) in
    let y := py_int (inject_Z center_y - inject_Z h / 2) in
    Some (mkRect x y w h, confidence, class_id)
  else None.

Fixpoint candidates (classes : list string) (fr : frame) (l : list raw) : list (rect * Q * nat) :=
  match l with
  | [] => []
  | d :: t =>
      match candidate classes fr d with
      | Some c => c :: candidates classes fr t
      | None => candidates classes fr t
      end
  end.

Definition cand0 : rect * Q * nat := (rect0, 0%Q, 0%nat).

(** The detections [detect_cars] counts, draws and samples in one frame:
    [for i in range(len(boxes)): if i in indexes:], with
    [indexes = cv2.dnn.NMSBoxes(boxes, confidences, 0.5, 0.4)]. *)
Definition frame_accepted (classes : list string) (fr : frame) : list (rect * Q * nat) :=
  let cs := candidates classes fr (rows fr) in
  let boxes := map (fun c => fst (fst c)) cs in
  let confidences := map (fun c => snd (fst c)) cs in
  let indexes := NMSBoxes boxes confidences (1#2) (2#5) in
  map (fun i => nth i cs cand0) (filter (fun i => idx_in i indexes) (seq 0 (List.length cs))).

(** The dict appended to [sample_detections] for an accepted detection. *)
Definition sample_of (classes : list string) (fr : frame) (c : rect * Q * nat) : sample :=
  let '(b, confidence, class_id) := c in
  mkSample (nth class_id classes "") (round2 confidence)
    (mkBBox (round2 (pct (inject_Z (ry b)) (inject_Z (height_frame fr))))
            (round2 (pct (inject_Z (rx b)) (inject_Z (width_frame fr))))
            (round2 (pct (inject_Z (rw b)) (inject_Z (width_frame fr))))
            (round2 (pct (inject_Z (rh b)) (inject_Z (height_frame fr))))).

(** Per accepted detection: count it and keep a sample. *)
Definition det_step (classes : list string) (fr : frame) (st : agg) (c : rect * Q * nat) : agg :=
  let label := nth (snd c) classes "" in
  let counts := if dict_mem label (vehicle_counts st)
                then dict_set label (S (dict_get label (vehicle_counts st) 0)) (vehicle_counts st)
                else vehicle_counts st in
  mkAgg counts (S (total st)) (push_sample (sample_of classes fr c) (sample_detections st)).

Definition frame_step (classes : list string) (st : agg) (fr : frame) : agg :=
  fold_left (det_step classes fr) (frame_accepted classes fr) st.

Definition init_counts : dict := [("car", 0%nat); ("bus", 0%nat); ("truck", 0%nat); ("motorbike", 0%nat)].

(** [detect_cars]: [(total_cars, vehicle_counts, sample_detections)]. *)
Definition detect_cars (classes : list string) (frames : list frame) : agg :=
  fold_left (frame_step classes) frames (mkAgg init_counts 0 []).

(** The JSON document the [__main__] block prints. *)
Definition yolo4_report (lane processed_video : string) (classes : list string) (frames : list frame) : report :=
  let st := detect_cars classes frames in
  mkReport lane processed_video (vehicle_counts st) (total st) (total st)
    (phase_of (total st)) (sample_detections st).

End Yolo4.

(* ================================================================= *)
(** ** Derived views: the stream of counted detections *)

(** Every [(result, box)] pair [run_yolo_inference] visits, in order. *)
Definition Ultra_stream (results : list Ultra.yresult) : list (Ultra.yresult * Ultra.ybox) :=
  List.concat (map (fun r => map (fun b => (r, b)) (Ultra.boxes r)) results).

(** Every [(frame, accepted detection)] pair [detect_cars] visits, in order. *)
Definition Yolo4_stream (classes : list string) (frames : list Yolo4.frame)
    : list (Yolo4.frame * (NMS.rect * Q * nat)) :=
  List.concat (map (fun fr => map (fun c => (fr, c)) (Yolo4.frame_accepted classes fr)) frames).

(** The label [random.choice] picks for a draw: the key list never changes. *)
Definition Sim_label (d : Sim.draw) : string := nth (Sim.d_choice d) (dict_keys Sim.init_counts) "".

(** The rectangle [cv2.rectangle] draws for a simulated box. *)
Definition Sim_rect (d : Sim.draw) : NMS.rect := NMS.mkRect (Sim.d_x d) (Sim.d_y d) (Sim.d_w d) (Sim.d_h d).

(** A step that adds one detection: [total] grows by one and the sample
    list is appended to as the source does. *)
Definition counts_one (g : sample) (st st' : agg) : Prop :=
  total st' = S (total st) /\
  sample_detections st' = push_sample g (sample_detections st).

(** The facts the simulated loop maintains, from a state [st] whose samples
    are the first 20 of [L]. *)
Definition Sim_post (w h : Z) (st st' : agg) (L : list sample) (ds : list Sim.draw) : Prop :=
  dict_keys (vehicle_counts st') = dict_keys Sim.init_counts /\
  dict_sum (vehicle_counts st') = (dict_sum (vehicle_counts st) + List.length ds)%nat /\
  total st' = (total st + List.length ds)%nat /\
  sample_detections st' = firstn 20 (L ++ map (fun d => Sim.sample_of w h (Sim_label d) d) ds).

(** The detections a caller keeps after [nms_with]: [for i in
    range(len(dets)): if i in indexes:], in their original order. *)
Definition nms_select {T : Type} (box : T -> NMS.rect) (score : T -> Q) (d0 : T)
    (keep : Q -> bool) (thr : Q) (dets : list T) : list T :=
  let indexes := NMS.nms_with keep thr (map box dets) (map score dets) in
  map (fun i => nth i dets d0) (filter (fun i => NMS.idx_in i indexes) (seq 0 (List.length dets))).

(** Overlap within the threshold. *)
Definition ov_ok (thr : Q) (a b : NMS.rect) : Prop := Qle_bool (NMS.rect_overlap a b) thr = true.

(** How many elements of [xs] carry label [l]. *)
Definition count_label {X : Type} (lab : X -> string) (l : string) (xs : list X) : nat :=
  List.length (filter (fun x => String.eqb (lab x) l) xs).

(* ================================================================= *)
(** ** Generic lemmas *)

Lemma fold_left_inv {A X : Type} (P : A -> Prop) (f : A -> X -> A) (l : list X) :
  (forall a x, In x l -> P a -> P (f a x)) -> forall a, P a -> P (fold_left f l a).
Proof.
  induction l as [|x l IH]; simpl; intros Hf a Ha; [exact Ha|].
  apply IH; [intros; apply Hf; auto | apply Hf; auto].
Qed.

Lemma fold_left_concat {A X : Type} (f : A -> X -> A) (ls : list (list X)) (a : A) :
  fold_left f (List.concat ls) a = fold_left (fun a l => fold_left f l a) ls a.
Proof.
  revert a; induction ls as [|l ls IH]; intros a; simpl; [reflexivity|].
  rewrite fold_left_app; apply IH.
Qed.

Lemma fold_left_map_pair {A X Y : Type} (f : A -> X -> Y -> A) (x : X) (l : list Y) (a : A) :
  fold_left (fun a p => f a (fst p) (snd p)) (map (fun y => (x, y)) l) a = fold_left (fun a y => f a x y) l a.
Proof.
  revert a; induction l as [|y l IH]; intros a; simpl; [reflexivity|apply IH].
Qed.

Lemma dict_sum_incr (k : string) (d : dict) :
  dict_sum (dict_set k (S (dict_get k d 0)) d) = S (dict_sum d).
Proof.
  unfold dict_sum; induction d as [|[k' v] t IH]; simpl; [lia|].
  destruct (String.eqb k k'); simpl; [lia|rewrite IH; lia].
Qed.

Lemma dict_keys_set (k : string) (v : nat) (d : dict) :
  dict_mem k d = true -> dict_keys (dict_set k v d) = dict_keys d.
Proof.
  unfold dict_keys; induction d as [|[k' v'] t IH]; simpl; [discriminate|].
  destruct (String.eqb k k'); simpl; [reflexivity|intros H; rewrite IH; auto].
Qed.

Lemma dict_mem_keys (k : string) (d : dict) :
  dict_mem k d = existsb (String.eqb k) (dict_keys d).
Proof. induction d as [|[k' v] t IH]; simpl; [reflexivity|now rewrite IH]. Qed.

Lemma push_sample_firstn (s : sample) (l : list sample) :
  push_sample s (firstn 20 l) = firstn 20 (l ++ [s]).
Proof.
  unfold push_sample. rewrite length_firstn.
  destruct (Nat.ltb_spec (Nat.min 20 (List.length l)) 20) as [Hlt|Hge].
  - rewrite firstn_all2 by lia. rewrite firstn_all2 by (rewrite length_app; simpl; lia).
    reflexivity.
  - rewrite firstn_app. replace (20 - List.length l)%nat with 0%nat by lia.
    simpl. rewrite app_nil_r. reflexivity.
Qed.

Lemma fold_counts_one {X : Type} (f : agg -> X -> agg) (g : X -> sample) (l : list X) :
  (forall st x, counts_one (g x) st (f st x)) ->
  forall st L, sample_detections st = firstn 20 L ->
  sample_detections (fold_left f l st) = firstn 20 (L ++ map g l) /\
  total (fold_left f l st) = (total st + List.length l)%nat.
Proof.
  intros Hf; induction l as [|x l IH]; intros st L HL; simpl.
  - rewrite app_nil_r; split; [exact HL|lia].
  - destruct (Hf st x) as [Ht Hs].
    destruct (IH (f st x) (L ++ [g x])) as [H1 H2].
    + rewrite Hs, HL. apply push_sample_firstn.
    + rewrite <- app_assoc in H1. split; [exact H1|]. rewrite H2, Ht. simpl. lia.
Qed.

(* ================================================================= *)
(** ** The three detection loops, seen as one fold over their streams *)

Lemma Ultra_run_stream (names : nat -> string) (results : list Ultra.yresult) (st : agg) :
  fold_left (Ultra.frame_step names) results st =
  fold_left (fun st p => Ultra.box_step names (fst p) st (snd p)) (Ultra_stream results) st.
Proof.
  revert st; induction results as [|r rs IH]; intros st; simpl; [reflexivity|].
  unfold Ultra_stream in *; simpl. rewrite fold_left_app.
  rewrite (fold_left_map_pair (fun a x y => Ultra.box_step names x a y)). apply IH.
Qed.

Lemma Yolo4_run_stream (classes : list string) (frames : list Yolo4.frame) (st : agg) :
  fold_left (Yolo4.frame_step classes) frames st =
  fold_left (fun st p => Yolo4.det_step classes (fst p) st (snd p)) (Yolo4_stream classes frames) st.
Proof.
  revert st; induction frames as [|fr frs IH]; intros st; simpl; [reflexivity|].
  unfold Yolo4_stream in *; simpl. rewrite fold_left_app.
  rewrite (fold_left_map_pair (fun a x y => Yolo4.det_step classes x a y)). apply IH.
Qed.

Lemma candidates_In (classes : list string) (fr : Yolo4.frame) (l : list Yolo4.raw) c :
  In c (Yolo4.candidates classes fr l) -> exists d, In d l /\ Yolo4.candidate classes fr d = Some c.
Proof.
  induction l as [|d l IH]; simpl; [tauto|].
  destruct (Yolo4.candidate classes fr d) eqn:E; simpl.
  - intros [<-|H]; [eauto|]. destruct (IH H) as (d' & ? & ?); eauto.
  - intros H. destruct (IH H) as (d' & ? & ?); eauto.
Qed.

Lemma candidate_Some (classes : list string) (fr : Yolo4.frame) d c :
  Yolo4.candidate classes fr d = Some c ->
  Yolo4.str_in (nth (snd c) classes "") Yolo4.vehicle_labels = true /\
  Qltb (1#2) (snd (fst c)) = true.
Proof.
  unfold Yolo4.candidate.
  destruct (Nat.ltb _ _ && _ && _) eqn:E; [|discriminate].
  intros H; injection H as <-; simpl.
  apply andb_true_iff in E as [E E3]; apply andb_true_iff in E as [_ E2]; auto.
Qed.

Lemma accepted_In_candidates (classes : list string) (fr : Yolo4.frame) c :
  In c (Yolo4.frame_accepted classes fr) -> In c (Yolo4.candidates classes fr (Yolo4.rows fr)).
Proof.
  unfold Yolo4.frame_accepted. intros H.
  apply in_map_iff in H as (i & <- & Hi).
  apply filter_In in Hi as [Hi _]. apply in_seq in Hi.
  apply nth_In. lia.
Qed.

Lemma accepted_label (classes : list string) (fr : Yolo4.frame) c :
  In c (Yolo4.frame_accepted classes fr) ->
  Yolo4.str_in (nth (snd c) classes "") Yolo4.vehicle_labels = true.
Proof.
  intros H. apply accepted_In_candidates, candidates_In in H as (d & _ & Hd).
  apply (candidate_Some _ _ _ _ Hd).
Qed.

Lemma Sim_draw_step (w h : Z) (st st' : agg) (d : Sim.draw) :
  Sim.draw_step w h st d = Some st' ->
  dict_keys (vehicle_counts st) = dict_keys Sim.init_counts ->
  dict_keys (vehicle_counts st') = dict_keys Sim.init_counts /\
  dict_sum (vehicle_counts st') = S (dict_sum (vehicle_counts st)) /\
  counts_one (Sim.sample_of w h (Sim_label d) d) st st'.
Proof.
  unfold Sim.draw_step, Sim_label. intros Hs Hk. rewrite Hk in Hs.
  destruct (dict_mem _ _) eqn:Hm; [|discriminate].
  injection Hs as <-; simpl.
  split; [rewrite dict_keys_set; auto|]. split; [apply dict_sum_incr|].
  split; reflexivity.
Qed.

Lemma Sim_frame_step (w h : Z) (ds : list Sim.draw) : forall st st' L,
  Sim.frame_step w h st ds = Some st' ->
  dict_keys (vehicle_counts st) = dict_keys Sim.init_counts ->
  sample_detections st = firstn 20 L -> Sim_post w h st st' L ds.
Proof.
  induction ds as [|d ds IH]; intros st st' L Hs Hk HL; simpl in Hs.
  - injection Hs as <-. unfold Sim_post; simpl. rewrite app_nil_r. repeat split; auto; lia.
  - destruct (Sim.draw_step w h st d) as [st1|] eqn:E; [|discriminate].
    destruct (Sim_draw_step _ _ _ _ _ E Hk) as (Hk1 & Hsum1 & Ht1 & Hs1).
    destruct (IH st1 st' (L ++ [Sim.sample_of w h (Sim_label d) d]) Hs Hk1)
      as (Hk2 & Hsum2 & Ht2 & Hs2).
    + rewrite Hs1, HL. apply push_sample_firstn.
    + unfold Sim_post; simpl. rewrite <- app_assoc in Hs2. repeat split; auto; lia.
Qed.

Lemma Sim_frames_loop (w h : Z) (frs : list (list Sim.draw)) : forall st st' L,
  Sim.frames_loop w h st frs = Some st' ->
  dict_keys (vehicle_counts st) = dict_keys Sim.init_counts ->
  sample_detections st = firstn 20 L -> Sim_post w h st st' L (List.concat frs).
Proof.
  induction frs as [|fr frs IH]; intros st st' L Hs Hk HL; simpl in Hs.
  - injection Hs as <-. unfold Sim_post; simpl. rewrite app_nil_r. repeat split; auto; lia.
  - destruct (Sim.frame_step w h st fr) as [st1|] eqn:E; [|discriminate].
    destruct (Sim_frame_step _ _ _ _ _ _ E Hk HL) as (Hk1 & Hsum1 & Ht1 & Hs1).
    destruct (IH st1 st' _ Hs Hk1 Hs1) as (Hk2 & Hsum2 & Ht2 & Hs2).
    unfold Sim_post; simpl. rewrite length_app, map_app, app_assoc.
    repeat split; auto; lia.
Qed.

Lemma Ultra_run_facts (names : nat -> string) (results : list Ultra.yresult) :
  let st := Ultra.run_yolo_inference names results in
  dict_sum (vehicle_counts st) = total st /\
  sample_detections st =
    firstn 20 (map (fun p => Ultra.sample_of names (fst p) (snd p)) (Ultra_stream results)) /\
  total st = List.length (Ultra_stream results).
Proof.
  cbv zeta. unfold Ultra.run_yolo_inference. rewrite Ultra_run_stream.
  split.
  - apply (fold_left_inv (fun st => dict_sum (vehicle_counts st) = total st)); [|reflexivity].
    intros st p _ H. simpl. rewrite dict_sum_incr, H. reflexivity.
  - exact (fold_counts_one (fun st p => Ultra.box_step names (fst p) st (snd p)) (fun p => Ultra.sample_of names (fst p) (snd p))
             (Ultra_stream results) (fun st p => conj eq_refl eq_refl) (mkAgg [] 0 []) [] eq_refl).
Qed.

Lemma Yolo4_run_facts (classes : list string) (frames : list Yolo4.frame) :
  let st := Yolo4.detect_cars classes frames in
  dict_sum (vehicle_counts st) = total st /\
  dict_keys (vehicle_counts st) = Yolo4.vehicle_labels /\
  sample_detections st =
    firstn 20 (map (fun p => Yolo4.sample_of classes (fst p) (snd p)) (Yolo4_stream classes frames)) /\
  total st = List.length (Yolo4_stream classes frames).
Proof.
  cbv zeta. unfold Yolo4.detect_cars. rewrite Yolo4_run_stream.
  set (P := fun st => dict_sum (vehicle_counts st) = total st /\
                      dict_keys (vehicle_counts st) = Yolo4.vehicle_labels).
  assert (Hinv : forall st, P st ->
    P (fold_left (fun st p => Yolo4.det_step classes (fst p) st (snd p))
         (Yolo4_stream classes frames) st)).
  { apply fold_left_inv. unfold P.
    intros st [fr c] Hin [Hs Hk]. simpl.
    assert (Hm : dict_mem (nth (snd c) classes "") (vehicle_counts st) = true).
    { rewrite dict_mem_keys, Hk.
      apply (accepted_label classes fr c).
      unfold Yolo4_stream in Hin. apply in_concat in Hin as (l & Hl & Hin).
      apply in_map_iff in Hl as (fr' & <- & _).
      apply in_map_iff in Hin as (c' & E & Hc'). injection E as -> ->. exact Hc'. }
    rewrite Hm. simpl. rewrite dict_sum_incr, dict_keys_set by exact Hm. auto. }
  destruct (Hinv (mkAgg Yolo4.init_counts 0 [])) as [H1 H2]; [split; reflexivity|].
  split; [exact H1|]. split; [exact H2|].
  exact (fold_counts_one (fun st p => Yolo4.det_step classes (fst p) st (snd p)) (fun p => Yolo4.sample_of classes (fst p) (snd p))
           (Yolo4_stream classes frames) (fun st p => conj eq_refl eq_refl)
           (mkAgg Yolo4.init_counts 0 []) [] eq_refl).
Qed.

Lemma Sim_run_facts (cw ch : Z) (frames : list (list Sim.draw)) (st : agg) :
  Sim.simulate_processing cw ch frames = Some st ->
  dict_keys (vehicle_counts st) = dict_keys Sim.init_counts /\
  dict_sum (vehicle_counts st) = total st /\
  sample_detections st =
    firstn 20 (map (fun d => Sim.sample_of (Sim.or_default cw 640) (Sim.or_default ch 360) (Sim_label d) d)
                 (List.concat frames)) /\
  total st = List.length (List.concat frames).
Proof.
  unfold Sim.simulate_processing. intros H.
  destruct (Sim_frames_loop _ _ _ _ _ [] H eq_refl eq_refl) as (Hk & Hs & Ht & Hsm).
  simpl in *. repeat split; auto. lia.
Qed.

(* ================================================================= *)
(** ** Claims about the report *)

(** C1: in every report the run emits, [total_vehicles] is the sum of the
    [vehicle_counts] values and [load_score] equals [total_vehicles]; in
    [process_video.py] ([main_report], both branches) and in
    [yolov4_detect.py] ([yolo4_report]). *)
Theorem C1_report_totals_consistent :
  (forall lane pv yolo_available names results cw ch frames,
     match main_report lane pv yolo_available names results cw ch frames with
     | Some r => r_total_vehicles r = dict_sum (r_vehicle_counts r) /\
                 r_load_score r = r_total_vehicles r
     | None => True
     end) /\
  (forall lane pv classes frames,
     let r := Yolo4.yolo4_report lane pv classes frames in
     r_total_vehicles r = dict_sum (r_vehicle_counts r) /\
     r_load_score r = r_total_vehicles r).
Proof.
  split.
  - intros lane pv ya names results cw ch frames. unfold main_report.
    destruct ya.
    + destruct (Ultra_run_facts names results) as [H _]. simpl. auto.
    + destruct (Sim.simulate_processing cw ch frames) as [st|] eqn:E; [|exact I].
      destruct (Sim_run_facts _ _ _ _ E) as (_ & H & _). simpl. auto.
  - intros lane pv classes frames. cbv zeta. unfold Yolo4.yolo4_report. simpl.
    destruct (Yolo4_run_facts classes frames) as [H _]. auto.
Qed.

(** C2: the phase is a function of the final total alone: green iff
    [total >= 15], amber iff [8 <= total < 15], red iff [total < 8], with
    the boundary values 7, 8, 14, 15; both reports take their phase from
    [total_vehicles] this way. *)
Theorem C2_phase_thresholds :
  (forall t : nat,
     (phase_of t = "green" <-> (15 <= t)%nat) /\
     (phase_of t = "amber" <-> (8 <= t < 15)%nat) /\
     (phase_of t = "red" <-> (t < 8)%nat)) /\
  phase_of 7 = "red" /\ phase_of 8 = "amber" /\ phase_of 14 = "amber" /\ phase_of 15 = "green" /\
  (forall lane pv yolo_available names results cw ch frames,
     option_map r_phase (main_report lane pv yolo_available names results cw ch frames) =
     option_map (fun r => phase_of (r_total_vehicles r))
       (main_report lane pv yolo_available names results cw ch frames)) /\
  (forall lane pv classes frames,
     r_phase (Yolo4.yolo4_report lane pv classes frames) =
     phase_of (r_total_vehicles (Yolo4.yolo4_report lane pv classes frames))).
Proof.
  split; [|repeat split; try reflexivity].
  - intros t. unfold phase_of.
    destruct (Nat.leb_spec 15 t); [|destruct (Nat.leb_spec 8 t)];
      repeat split; intros; try discriminate; try lia; reflexivity.
  - intros. unfold main_report.
    destruct (if yolo_available then _ else _); reflexivity.
Qed.

(** C3: [sample_detections] is the first [min(20, total)] counted
    detections in frame-then-within-frame order, in all three loops; each
    append step only extends the list, never past 20 entries, and leaves
    it unchanged once it holds 20. *)
Theorem C3_samples_fifo_prefix :
  (forall names results,
     let st := Ultra.run_yolo_inference names results in
     let ds := map (fun p => Ultra.sample_of names (fst p) (snd p)) (Ultra_stream results) in
     sample_detections st = firstn 20 ds /\ total st = List.length ds) /\
  (forall classes frames,
     let st := Yolo4.detect_cars classes frames in
     let ds := map (fun p => Yolo4.sample_of classes (fst p) (snd p)) (Yolo4_stream classes frames) in
     sample_detections st = firstn 20 ds /\ total st = List.length ds) /\
  (forall cw ch frames st,
     Sim.simulate_processing cw ch frames = Some st ->
     let ds := map (fun d => Sim.sample_of (Sim.or_default cw 640) (Sim.or_default ch 360) (Sim_label d) d)
                 (List.concat frames) in
     sample_detections st = firstn 20 ds /\ total st = List.length ds) /\
  (forall s l,
     (List.length l <= 20)%nat ->
     (exists suffix, push_sample s l = l ++ suffix) /\
     (List.length (push_sample s l) <= 20)%nat /\
     (List.length l = 20%nat -> push_sample s l = l)).
Proof.
  split; [|split; [|split]].
  - intros names results. cbv zeta. destruct (Ultra_run_facts names results) as (_ & H1 & H2).
    rewrite length_map. auto.
  - intros classes frames. cbv zeta. destruct (Yolo4_run_facts classes frames) as (_ & _ & H1 & H2).
    rewrite length_map. auto.
  - intros cw ch frames st H. cbv zeta. destruct (Sim_run_facts _ _ _ _ H) as (_ & _ & H1 & H2).
    rewrite length_map. auto.
  - intros s l Hl. unfold push_sample.
    destruct (Nat.ltb_spec (List.length l) 20).
    + split; [eauto|]. split; [rewrite length_app; simpl; lia|lia].
    + split; [exists []; rewrite app_nil_r; reflexivity|]. auto.
Qed.

(** C8: a video from which no frame is read still yields a report, with
    [total_vehicles = 0], counts all zero (empty for the ultralytics
    branch), phase red and no samples, in both programs. *)
Theorem C8_empty_video_report :
  (forall lane pv yolo_available names cw ch,
     exists r, main_report lane pv yolo_available names [] cw ch [] = Some r /\
       r_total_vehicles r = 0%nat /\ r_load_score r = 0%nat /\
       Forall (fun kv => snd kv = 0%nat) (r_vehicle_counts r) /\
       (if yolo_available then r_vehicle_counts r = [] else True) /\
       r_phase r = "red" /\ r_sample_detections r = []) /\
  (forall lane pv classes,
     let r := Yolo4.yolo4_report lane pv classes [] in
     r_total_vehicles r = 0%nat /\ r_load_score r = 0%nat /\
     Forall (fun kv => snd kv = 0%nat) (r_vehicle_counts r) /\
     r_phase r = "red" /\ r_sample_detections r = []).
Proof.
  split.
  - intros lane pv ya names cw ch. unfold main_report.
    destruct ya; simpl; eexists; split; try reflexivity;
      repeat split; try reflexivity; try discriminate; repeat constructor.
  - intros. cbv zeta. simpl. repeat split; repeat constructor.
Qed.

(* ================================================================= *)
(** ** Non-maximum suppression: what the greedy pass guarantees *)

Lemma FOP_snoc {A : Type} (R : A -> A -> Prop) (l : list A) (x : A) :
  ForallOrdPairs R l -> Forall (fun a => R a x) l -> ForallOrdPairs R (l ++ [x]).
Proof.
  induction 1 as [|a l Ha Hl IH]; simpl; intros Hx.
  - repeat constructor.
  - inversion Hx; subst. constructor; [apply Forall_app; auto|auto].
Qed.

Lemma Forall_filter_sub {A : Type} (P : A -> Prop) (f : A -> bool) (l : list A) :
  Forall P l -> Forall P (filter f l).
Proof.
  rewrite !Forall_forall. intros H x Hx. apply filter_In in Hx as [Hx _]. auto.
Qed.

Lemma FOP_filter {A : Type} (R : A -> A -> Prop) (f : A -> bool) (l : list A) :
  ForallOrdPairs R l -> ForallOrdPairs R (filter f l).
Proof.
  induction 1 as [|a l Ha Hl IH]; simpl; [constructor|].
  destruct (f a); [constructor; [apply Forall_filter_sub; auto|]|]; auto.
Qed.

Lemma FOP_map {A B : Type} (R : B -> B -> Prop) (g : A -> B) (l : list A) :
  ForallOrdPairs (fun a b => R (g a) (g b)) l -> ForallOrdPairs R (map g l).
Proof.
  induction 1 as [|a l Ha Hl IH]; simpl; constructor; auto.
  apply Forall_map; auto.
Qed.

Lemma FOP_weaken {A : Type} (Q : A -> Prop) (R1 R2 : A -> A -> Prop) (l : list A) :
  (forall a b, Q a -> Q b -> R1 a b -> R2 a b) ->
  Forall Q l -> ForallOrdPairs R1 l -> ForallOrdPairs R2 l.
Proof.
  intros Himp HQ H; induction H as [|a l Ha Hl IH]; constructor.
  - inversion HQ; subst. rewrite Forall_forall in *. intros b Hb.
    apply Himp; auto.
  - inversion HQ; auto.
Qed.

Lemma FOP_seq_lt (k n : nat) : ForallOrdPairs lt (seq k n).
Proof.
  revert k; induction n as [|n IH]; intros k; simpl; constructor; auto.
  apply Forall_forall. intros x Hx. apply in_seq in Hx. lia.
Qed.

Lemma FOP_nth {A : Type} (R : A -> A -> Prop) (l : list A) (d : A) :
  ForallOrdPairs R l -> forall i j, (i < j < List.length l)%nat -> R (nth i l d) (nth j l d).
Proof.
  induction 1 as [|a l Ha Hl IH]; intros i j Hij; simpl in *; [lia|].
  destruct i as [|i], j as [|j]; try lia.
  - rewrite Forall_forall in Ha. apply Ha, nth_In. lia.
  - apply IH. lia.
Qed.

Lemma nth_map_lt {A B : Type} (f : A -> B) (l : list A) (i : nat) (d : A) (d' : B) :
  (i < List.length l)%nat -> nth i (map f l) d' = f (nth i l d).
Proof.
  intros H. rewrite (nth_indep _ d' (f d)) by (rewrite length_map; exact H).
  apply map_nth.
Qed.

Lemma map_nth_seq_all {A : Type} (l : list A) (d : A) :
  map (fun i => nth i l d) (seq 0 (List.length l)) = l.
Proof.
  apply (nth_ext _ _ d d); rewrite length_map, length_seq; [reflexivity|].
  intros i Hi. rewrite (nth_map_lt _ _ _ 0%nat) by (rewrite length_seq; exact Hi).
  rewrite seq_nth by exact Hi. reflexivity.
Qed.

Lemma idx_in_iff (i : nat) (l : list nat) : NMS.idx_in i l = true <-> In i l.
Proof.
  unfold NMS.idx_in. rewrite existsb_exists. split.
  - intros (x & Hx & E). apply Nat.eqb_eq in E. subst. exact Hx.
  - intros H. exists i. split; [exact H|apply Nat.eqb_refl].
Qed.

Lemma combine_seq_In (l : list Q) : forall k i s,
  In (i, s) (combine (seq k (List.length l)) l) ->
  (k <= i < k + List.length l)%nat /\ nth (i - k) l 0%Q = s.
Proof.
  induction l as [|x l IH]; intros k i s H; simpl in H; [contradiction|].
  destruct H as [E|H].
  - injection E as <- <-. rewrite Nat.sub_diag. simpl. split; [lia|reflexivity].
  - destruct (IH (S k) i s H) as [H1 H2]. simpl.
    replace (i - k)%nat with (S (i - S k)) by lia. split; [lia|exact H2].
Qed.

Lemma map_fst_combine_seq (l : list Q) : forall k,
  map fst (combine (seq k (List.length l)) l) = seq k (List.length l).
Proof. induction l as [|x l IH]; intros k; simpl; [reflexivity|now rewrite IH]. Qed.

Lemma insert_desc_perm (p : nat * Q) (l : list (nat * Q)) :
  Permutation (NMS.insert_desc p l) (p :: l).
Proof.
  induction l as [|q l IH]; simpl; [reflexivity|].
  destruct (Qltb (snd q) (snd p)); [reflexivity|].
  rewrite IH. apply perm_swap.
Qed.

Lemma stable_sort_desc_perm (l : list (nat * Q)) : Permutation (NMS.stable_sort_desc l) l.
Proof.
  unfold NMS.stable_sort_desc.
  assert (H : forall acc, Permutation (fold_left (fun acc p => NMS.insert_desc p acc) l acc) (l ++ acc)).
  { induction l as [|p l IH]; intros acc; simpl; [reflexivity|].
    rewrite IH, insert_desc_perm. apply Permutation_sym, Permutation_middle. }
  rewrite H, app_nil_r. reflexivity.
Qed.

Lemma filter_all_true {A : Type} (f : A -> bool) (l : list A) :
  (forall x, In x l -> f x = true) -> filter f l = l.
Proof.
  induction l as [|x l IH]; intros H; simpl; [reflexivity|].
  rewrite H by (left; reflexivity). f_equal. apply IH. intros; apply H; right; auto.
Qed.

Lemma inter_area_sym (a b : NMS.rect) : NMS.inter_area a b = NMS.inter_area b a.
Proof.
  unfold NMS.inter_area.
  rewrite (Z.max_comm (NMS.rx a)), (Z.max_comm (NMS.ry a)),
          (Z.min_comm (NMS.rx a + _)), (Z.min_comm (NMS.ry a + _)).
  destruct (NMS.rw a <=? 0), (NMS.rh a <=? 0), (NMS.rw b <=? 0), (NMS.rh b <=? 0); reflexivity.
Qed.

Lemma rect_overlap_sym (a b : NMS.rect) : NMS.rect_overlap a b = NMS.rect_overlap b a.
Proof.
  unfold NMS.rect_overlap. rewrite inter_area_sym, (Z.add_comm (NMS.area a)). reflexivity.
Qed.

Section NMSFacts.

Variables (keep : Q -> bool) (thr : Q).

Lemma ov_ok_sym a b : ov_ok thr a b -> ov_ok thr b a.
Proof. unfold ov_ok. now rewrite rect_overlap_sym. Qed.

Lemma greedy_pairs (boxes : list NMS.rect) (l : list (nat * Q)) : forall kept,
  ForallOrdPairs (fun i j => ov_ok thr (nth j boxes NMS.rect0) (nth i boxes NMS.rect0)) kept ->
  ForallOrdPairs (fun i j => ov_ok thr (nth j boxes NMS.rect0) (nth i boxes NMS.rect0))
    (NMS.greedy thr boxes kept l).
Proof.
  induction l as [|p l IH]; intros kept H; simpl; [exact H|].
  destruct (forallb _ kept) eqn:E; apply IH; [|exact H].
  apply FOP_snoc; [exact H|]. apply Forall_forall. intros k Hk.
  rewrite forallb_forall in E. exact (E k Hk).
Qed.

Lemma greedy_incl (boxes : list NMS.rect) (l : list (nat * Q)) : forall kept x,
  In x (NMS.greedy thr boxes kept l) -> In x kept \/ In x (map fst l).
Proof.
  induction l as [|p l IH]; intros kept x H; simpl in *; [auto|].
  destruct (forallb _ kept); apply IH in H as [H|H]; auto.
  apply in_app_or in H as [H|[<-|[]]]; auto.
Qed.

Lemma greedy_distinct (boxes : list NMS.rect) (l : list (nat * Q)) i j :
  In i (NMS.greedy thr boxes [] l) -> In j (NMS.greedy thr boxes [] l) -> i <> j ->
  ov_ok thr (nth i boxes NMS.rect0) (nth j boxes NMS.rect0).
Proof.
  intros Hi Hj Hij.
  destruct (ForallOrdPairs_In (greedy_pairs boxes l [] (FOP_nil _)) i j Hi Hj) as [E|[H|H]].
  - contradiction.
  - apply ov_ok_sym; exact H.
  - exact H.
Qed.

Lemma max_score_index_In (scores : list Q) p :
  In p (NMS.max_score_index keep scores) ->
  (fst p < List.length scores)%nat /\ keep (nth (fst p) scores 0%Q) = true.
Proof.
  unfold NMS.max_score_index. intros H.
  apply (Permutation_in _ (stable_sort_desc_perm _)) in H.
  apply filter_In in H as [H Hk]. destruct p as [i s].
  apply combine_seq_In in H as [Hb Hn]. rewrite Nat.sub_0_r in Hn. simpl.
  split; [lia|]. rewrite Hn. exact Hk.
Qed.

Lemma greedy_all (boxes : list NMS.rect) (l : list (nat * Q)) : forall kept,
  NoDup (kept ++ map fst l) ->
  (forall i j, In i (kept ++ map fst l) -> In j (kept ++ map fst l) -> i <> j ->
     ov_ok thr (nth i boxes NMS.rect0) (nth j boxes NMS.rect0)) ->
  NMS.greedy thr boxes kept l = kept ++ map fst l.
Proof.
  induction l as [|p l IH]; intros kept Hnd Hok; simpl in *; [now rewrite app_nil_r|].
  assert (E : forallb (fun k => Qle_bool (NMS.rect_overlap (nth (fst p) boxes NMS.rect0)
                                            (nth k boxes NMS.rect0)) thr) kept = true).
  { apply forallb_forall. intros k Hk. apply Hok.
    - apply in_or_app; right; left; reflexivity.
    - apply in_or_app; left; exact Hk.
    - intros <-. apply NoDup_remove_2 in Hnd. apply Hnd, in_or_app; left; exact Hk. }
  rewrite E.
  replace (kept ++ fst p :: map fst l) with ((kept ++ [fst p]) ++ map fst l) in *
    by (rewrite <- app_assoc; reflexivity).
  apply IH; [exact Hnd|exact Hok].
Qed.

End NMSFacts.

Section NMSSelect.

Variables (T : Type) (box : T -> NMS.rect) (score : T -> Q) (d0 : T).
Variables (keep : Q -> bool) (thr : Q).

(** Every selected detection passes the score test, and any two selected
    detections overlap by at most [thr]. *)
Lemma nms_select_sound (dets : list T) :
  Forall (fun x => keep (score x) = true) (nms_select box score d0 keep thr dets) /\
  ForallOrdPairs (fun a b => ov_ok thr (box a) (box b)) (nms_select box score d0 keep thr dets).
Proof.
  unfold nms_select.
  set (idx := NMS.nms_with keep thr (map box dets) (map score dets)).
  set (sel := filter (fun i => NMS.idx_in i idx) (seq 0 (List.length dets))).
  assert (Hsel : forall i, In i sel ->
            (i < List.length dets)%nat /\ In i idx /\ keep (score (nth i dets d0)) = true).
  { intros i Hi. unfold sel in Hi. apply filter_In in Hi as [Hs Hin].
    apply in_seq in Hs. apply idx_in_iff in Hin.
    split; [lia|split; [exact Hin|]].
    unfold idx, NMS.nms_with in Hin.
    apply greedy_incl in Hin as [[]|Hin].
    apply in_map_iff in Hin as (p & <- & Hp).
    apply max_score_index_In in Hp as [Hlt Hk].
    rewrite (nth_map_lt _ _ _ d0) in Hk by lia. exact Hk. }
  split.
  - apply Forall_map, Forall_forall. intros i Hi. apply Hsel, Hi.
  - apply FOP_map.
    apply (FOP_weaken (fun i => In i sel) lt).
    + intros i j Hi Hj Hij.
      destruct (Hsel i Hi) as (Hi1 & Hi2 & _), (Hsel j Hj) as (Hj1 & Hj2 & _).
      pose proof (greedy_distinct thr (map box dets) _ i j Hi2 Hj2 ltac:(lia)) as H.
      rewrite !(nth_map_lt _ _ _ d0) in H by lia. exact H.
    + apply Forall_forall; auto.
    + apply FOP_filter, FOP_seq_lt.
Qed.

(** A list that already passes the score test everywhere and has no pair
    overlapping by more than [thr] is selected whole. *)
Lemma nms_select_all (dets : list T) :
  Forall (fun x => keep (score x) = true) dets ->
  ForallOrdPairs (fun a b => ov_ok thr (box a) (box b)) dets ->
  nms_select box score d0 keep thr dets = dets.
Proof.
  intros Hk Hp. unfold nms_select, NMS.nms_with, NMS.max_score_index.
  set (n := List.length dets).
  assert (Hlen : List.length (map score dets) = n) by apply length_map.
  rewrite Hlen.
  rewrite (filter_all_true (fun p : nat * Q => keep (snd p))).
  2:{ intros [i s] Hin. rewrite <- Hlen in Hin.
      apply combine_seq_In in Hin as [Hb Hn]. rewrite Nat.sub_0_r in Hn. simpl.
      rewrite <- Hn, (nth_map_lt _ _ _ d0) by (unfold n in *; lia).
      rewrite Forall_forall in Hk. apply Hk, nth_In. unfold n in *; lia. }
  set (C := combine (seq 0 n) (map score dets)).
  assert (HC : map fst C = seq 0 n) by (unfold C; rewrite <- Hlen; apply map_fst_combine_seq).
  assert (Hperm : Permutation (map fst (NMS.stable_sort_desc C)) (seq 0 n)).
  { rewrite <- HC. apply Permutation_map, stable_sort_desc_perm. }
  rewrite (greedy_all thr (map box dets) (NMS.stable_sort_desc C) []); simpl.
  - rewrite filter_all_true; [apply map_nth_seq_all|].
    intros i Hi. apply idx_in_iff. apply (Permutation_in _ (Permutation_sym Hperm)), Hi.
  - apply (Permutation_NoDup (Permutation_sym Hperm)), seq_NoDup.
  - intros i j Hi Hj Hij.
    apply (Permutation_in _ Hperm), in_seq in Hi.
    apply (Permutation_in _ Hperm), in_seq in Hj.
    rewrite !(nth_map_lt _ _ _ d0) by (unfold n in *; lia).
    destruct (proj1 (Nat.lt_gt_cases i j) Hij) as [Hlt|Hgt].
    + apply (FOP_nth _ _ d0 Hp); unfold n in *; lia.
    + apply ov_ok_sym, (FOP_nth _ _ d0 Hp); unfold n in *; lia.
Qed.

End NMSSelect.

Lemma frame_accepted_select (classes : list string) (fr : Yolo4.frame) :
  Yolo4.frame_accepted classes fr =
  nms_select (fun c => fst (fst c)) (fun c => snd (fst c)) Yolo4.cand0
    (fun s => Qltb (1#2) s) (2#5) (Yolo4.candidates classes fr (Yolo4.rows fr)).
Proof. reflexivity. Qed.

Lemma Qltb_lt (a b : Q) : Qltb a b = true -> (a < b)%Q.
Proof.
  unfold Qltb. intros H. apply negb_true_iff in H.
  apply Qnot_le_lt. intros Hle. apply Qle_bool_iff in Hle. congruence.
Qed.

(* ================================================================= *)
(** ** Claims about overlap suppression *)

(** C9: the suppression [detect_cars] applies, [cv2.dnn.NMSBoxes] followed
    by [for i in range(len(boxes)): if i in indexes:], is idempotent:
    suppressing the detections it kept keeps them all.  This holds for any
    detections and any thresholds (with OpenCV's strict score test), and in
    particular at 0.5 / 0.4: re-suppressing the accepted detections of a
    frame returns them unchanged. *)
Theorem C9_suppress_idempotent :
  (forall (T : Type) (box : T -> NMS.rect) (score : T -> Q) (d0 : T)
          (score_threshold nms_threshold : Q) (dets : list T),
     let supp := nms_select box score d0 (fun s => Qltb score_threshold s) nms_threshold in
     supp (supp dets) = supp dets) /\
  (forall classes fr,
     nms_select (fun c => fst (fst c)) (fun c => snd (fst c)) Yolo4.cand0
       (fun s => Qltb (1#2) s) (2#5) (Yolo4.frame_accepted classes fr) =
     Yolo4.frame_accepted classes fr).
Proof.
  split.
  - intros T box score d0 sthr nthr dets. cbv zeta.
    destruct (nms_select_sound _ box score d0 (fun s => Qltb sthr s) nthr dets) as [Hk Hp].
    apply nms_select_all; assumption.
  - intros classes fr. rewrite frame_accepted_select.
    destruct (nms_select_sound _ (fun c => fst (fst c)) (fun c => snd (fst c)) Yolo4.cand0
                (fun s => Qltb (1#2) s) (2#5) (Yolo4.candidates classes fr (Yolo4.rows fr)))
      as [Hk Hp].
    apply nms_select_all; assumption.
Qed.

(** C4 (as amended): in [detect_cars], the detections accepted in one
    frame (counted, drawn and sampled) overlap pairwise by at most 0.4
    (OpenCV's IoU) and each has confidence above 0.5. *)
Theorem C4_yolo4_accepted_separated (classes : list string) (fr : Yolo4.frame) :
  ForallOrdPairs (fun a b => (NMS.rect_overlap (fst (fst a)) (fst (fst b)) <= 2#5)%Q)
    (Yolo4.frame_accepted classes fr) /\
  Forall (fun a => (1#2 < snd (fst a))%Q) (Yolo4.frame_accepted classes fr).
Proof.
  rewrite frame_accepted_select.
  destruct (nms_select_sound _ (fun c => fst (fst c)) (fun c => snd (fst c)) Yolo4.cand0
              (fun s => Qltb (1#2) s) (2#5) (Yolo4.candidates classes fr (Yolo4.rows fr)))
    as [Hk Hp].
  split.
  - apply (FOP_weaken (fun _ => True) (fun a b => ov_ok (2#5) (fst (fst a)) (fst (fst b)))).
    + intros a b _ _ H. apply Qle_bool_iff, H.
    + apply Forall_forall; auto.
    + exact Hp.
  - rewrite Forall_forall in *. intros a Ha. apply Qltb_lt, Hk, Ha.
Qed.

(** C4 does not hold for the simulated detector: it draws its boxes
    independently and applies no suppression, so one frame can count two
    identical boxes (overlap 1). *)
Lemma C4_counterexample_simulated_overlap :
  ~ (forall cw ch frames st,
       Sim.valid_frames (Sim.or_default cw 640) (Sim.or_default ch 360) frames = true ->
       Sim.simulate_processing cw ch frames = Some st ->
       Forall (ForallOrdPairs (fun a b => (NMS.rect_overlap (Sim_rect a) (Sim_rect b) <= 2#5)%Q))
         frames).
Proof.
  intros H.
  set (d := Sim.mkDraw 2 (3#4) 50 50 10 10).
  destruct (Sim.simulate_processing 640 360 [[d; d]]) as [st|] eqn:E; [|discriminate E].
  specialize (H 640 360 [[d; d]] st eq_refl E).
  inversion H as [|fr frs Hfr _]; subst.
  inversion Hfr as [|a l Ha _]; subst.
  inversion Ha as [|b l' Hb _]; subst.
  vm_compute in Hb. apply Hb. reflexivity.
Qed.

(* ================================================================= *)
(** ** Rounding *)

Lemma Qltb_half_of_le0 (r : Q) : (r <= 0)%Q -> Qltb r (1#2) = true.
Proof.
  intros H. unfold Qltb. apply negb_true_iff, not_true_is_false.
  intros E. apply Qle_bool_iff in E. lra.
Qed.

Lemma round_half_even_le (q : Q) (k : Z) : (q <= inject_Z k)%Q -> round_half_even q <= k.
Proof.
  intros H. unfold round_half_even.
  assert (Hf : Qfloor q <= k) by (rewrite <- (Qfloor_Z k); apply Qfloor_resp_le, H).
  destruct (Z.eq_dec (Qfloor q) k) as [E|N].
  - rewrite Qltb_half_of_le0; [lia|].
    rewrite E. lra.
  - destruct (Qltb _ _); [lia|]. destruct (Qltb _ _); [lia|].
    destruct (Z.even _); lia.
Qed.

Lemma round_half_even_ge (q : Q) (k : Z) : (inject_Z k <= q)%Q -> k <= round_half_even q.
Proof.
  intros H. unfold round_half_even.
  assert (Hf : k <= Qfloor q) by (rewrite <- (Qfloor_Z k); apply Qfloor_resp_le, H).
  destruct (Qltb _ _); [lia|]. destruct (Qltb _ _); [lia|].
  destruct (Z.even _); lia.
Qed.

Lemma round2_le (q : Q) (k : Z) : (q * 100 <= inject_Z k)%Q -> (round2 q <= inject_Z k / 100)%Q.
Proof.
  intros H. unfold round2. rewrite Qred_correct.
  pose proof (round_half_even_le _ _ H) as Hr. rewrite Zle_Qle in Hr.
  unfold Qdiv. apply Qmult_le_compat_r; [exact Hr|discriminate].
Qed.

Lemma round2_ge (q : Q) (k : Z) : (inject_Z k <= q * 100)%Q -> (inject_Z k / 100 <= round2 q)%Q.
Proof.
  intros H. unfold round2. rewrite Qred_correct.
  pose proof (round_half_even_ge _ _ H) as Hr. rewrite Zle_Qle in Hr.
  unfold Qdiv. apply Qmult_le_compat_r; [exact Hr|discriminate].
Qed.

Lemma pct_le_neg1 (x w : Z) : 0 < w -> 100 * x <= - w -> (pct (inject_Z x) (inject_Z w) <= -1)%Q.
Proof.
  intros Hw Hx. destruct w as [|p|p]; try lia.
  unfold pct, Qle, Qdiv, Qmult, Qinv, inject_Z; simpl. lia.
Qed.

Lemma In_firstn_In {A : Type} (n : nat) (l : list A) (x : A) : In x (firstn n l) -> In x l.
Proof. intros H. rewrite <- (firstn_skipn n l). apply in_or_app. auto. Qed.

Lemma Sim_draw_some (w h : Z) (st : agg) (d : Sim.draw) :
  dict_keys (vehicle_counts st) = dict_keys Sim.init_counts -> (Sim.d_choice d < 6)%nat ->
  exists st', Sim.draw_step w h st d = Some st'.
Proof.
  intros Hk Hc. unfold Sim.draw_step.
  assert (Hm : dict_mem (nth (Sim.d_choice d) (dict_keys (vehicle_counts st)) "") (vehicle_counts st) = true).
  { rewrite dict_mem_keys, Hk.
    destruct (Sim.d_choice d) as [|[|[|[|[|[|]]]]]]; try reflexivity; lia. }
  rewrite Hm. eauto.
Qed.

Lemma Sim_frame_some (w h : Z) (ds : list Sim.draw) : forall st,
  dict_keys (vehicle_counts st) = dict_keys Sim.init_counts ->
  Forall (fun d => Sim.d_choice d < 6)%nat ds ->
  exists st', Sim.frame_step w h st ds = Some st' /\
              dict_keys (vehicle_counts st') = dict_keys Sim.init_counts.
Proof.
  induction ds as [|d ds IH]; intros st Hk Hc; simpl; [eauto|].
  inversion Hc; subst.
  destruct (Sim_draw_some w h st d Hk ltac:(assumption)) as [st1 E]. rewrite E.
  destruct (Sim_draw_step _ _ _ _ _ E Hk) as [Hk1 _]. apply IH; auto.
Qed.

Lemma Sim_loop_some (w h : Z) (frs : list (list Sim.draw)) : forall st,
  dict_keys (vehicle_counts st) = dict_keys Sim.init_counts ->
  Forall (fun d => Sim.d_choice d < 6)%nat (List.concat frs) ->
  exists st', Sim.frames_loop w h st frs = Some st'.
Proof.
  induction frs as [|fr frs IH]; intros st Hk Hc; simpl in *; [eauto|].
  apply Forall_app in Hc as [Hc1 Hc2].
  destruct (Sim_frame_some w h fr st Hk Hc1) as (st1 & E & Hk1). rewrite E. apply IH; auto.
Qed.

Lemma valid_frames_length (w h : Z) (frs : list (list Sim.draw)) :
  Sim.valid_frames w h frs = true ->
  (List.length frs <= List.length (List.concat frs) <= 4 * List.length frs)%nat.
Proof.
  induction frs as [|fr frs IH]; simpl; [lia|].
  intros H. apply andb_true_iff in H as [Hfr Hrest].
  unfold Sim.valid_frame in Hfr. apply andb_true_iff in Hfr as [Hfr _].
  apply andb_true_iff in Hfr as [H1 H2]. apply Nat.leb_le in H1, H2.
  specialize (IH Hrest). rewrite length_app. lia.
Qed.

Lemma valid_frames_draws (w h : Z) (frs : list (list Sim.draw)) :
  Sim.valid_frames w h frs = true ->
  Forall (fun fr => 1 <= List.length fr <= 4)%nat frs /\
  Forall (fun d => Sim.valid_draw w h d = true) (List.concat frs).
Proof.
  induction frs as [|fr frs IH]; simpl; [split; constructor|].
  intros H. apply andb_true_iff in H as [Hfr Hrest]. destruct (IH Hrest) as [IH1 IH2].
  unfold Sim.valid_frame in Hfr. apply andb_true_iff in Hfr as [Hfr Hall].
  apply andb_true_iff in Hfr as [H1 H2]. apply Nat.leb_le in H1, H2.
  split; [constructor; auto|]. apply Forall_app; split; [|exact IH2].
  apply Forall_forall. intros d Hd. rewrite forallb_forall in Hall. auto.
Qed.

Lemma valid_draw_facts (w h : Z) (d : Sim.draw) :
  Sim.valid_draw w h d = true ->
  (Sim.d_choice d < 6)%nat /\ (55#100 <= round2 (Sim.d_u d) <= 95#100)%Q /\
  0 <= Sim.d_x d /\ Sim.d_x d + Sim.d_w d <= Z.max w (Sim.d_w d) /\
  0 <= Sim.d_y d /\ Sim.d_y d + Sim.d_h d <= Z.max h (Sim.d_h d).
Proof.
  unfold Sim.valid_draw. intros H.
  repeat match goal with
         | H : (_ && _) = true |- _ => apply andb_true_iff in H as [? ?]
         end.
  repeat match goal with
         | H : Z.leb _ _ = true |- _ => apply Z.leb_le in H
         | H : Nat.ltb _ _ = true |- _ => apply Nat.ltb_lt in H
         | H : Qle_bool _ _ = true |- _ => apply Qle_bool_iff in H
         end.
  split; [assumption|]. split; [split|lia].
  - apply Qle_trans with (inject_Z 55 / 100)%Q; [vm_compute; discriminate|].
    apply round2_ge. unfold inject_Z. lra.
  - apply Qle_trans with (inject_Z 95 / 100)%Q; [|vm_compute; discriminate].
    apply round2_le. unfold inject_Z. lra.
Qed.

Lemma py_int_nonneg_bounds (q : Q) :
  (0 <= q)%Q -> (inject_Z (py_int q) <= q < inject_Z (py_int q) + 1)%Q.
Proof.
  destruct q as [n d]. unfold py_int, Qle, Qlt, inject_Z, Qplus; simpl. intros Hn.
  rewrite Z.mul_1_r in *.
  assert (Hd : 0 < Z.pos d) by lia.
  rewrite Z.quot_div_nonneg by lia.
  pose proof (Z.mul_div_le n (Z.pos d) Hd) as H1.
  pose proof (Z.mul_succ_div_gt n (Z.pos d) Hd) as H2.
  split; nia.
Qed.

(* ================================================================= *)
(** ** Claims about box geometry and percentages *)

(** C5 does not hold as a formula over the reals: [detect_cars] truncates
    to integers at every step.  With [cx = cy = 0.5], [w = h = 0.25] on a
    10x10 frame the box is [x = 4], [w = 2], not [3.75] and [2.5]. *)
Lemma C5_counterexample_truncation :
  ~ (forall classes fr d b c k,
       Yolo4.candidate classes fr d = Some (b, c, k) ->
       let W := inject_Z (Yolo4.width_frame fr) in
       let H := inject_Z (Yolo4.height_frame fr) in
       inject_Z (NMS.rx b) == Yolo4.cx d * W - Yolo4.bw d * W / 2 /\
       inject_Z (NMS.ry b) == Yolo4.cy d * H - Yolo4.bh d * H / 2 /\
       inject_Z (NMS.rw b) == Yolo4.bw d * W /\
       inject_Z (NMS.rh b) == Yolo4.bh d * H)%Q.
Proof.
  intros Hall.
  destruct (Hall ["person"; "car"] (Yolo4.mkFrame 10 10 [])
              (Yolo4.mkRaw (1#2) (1#2) (1#4) (1#4) 0%Q [9#10])
              (NMS.mkRect 4 4 2 2) (9#10) 1%nat eq_refl) as [Hx _].
  vm_compute in Hx. discriminate Hx.
Qed.

(** C5 (as amended): for a centre-size row, [detect_cars] computes
    [center_x = int(cx * W)], [w = int(w * W)], [x = int(center_x - w / 2)]
    (and the same for [y], [h] with [H]), [int] truncating toward zero; when
    [w * W] and [h * H] are non-negative, the pixel width and height are
    their integer parts; on [cx = cy = 0.5], [w = h = 0.2] and a 100x100
    frame this gives the box [x = 40], [y = 40], [w = 20], [h = 20]. *)
Theorem C5_centerbox_normalization :
  (forall classes fr d,
     match Yolo4.candidate classes fr d with
     | Some (b, _, _) =>
         let W := inject_Z (Yolo4.width_frame fr) in
         let H := inject_Z (Yolo4.height_frame fr) in
         NMS.rw b = py_int (Yolo4.bw d * W) /\
         NMS.rh b = py_int (Yolo4.bh d * H) /\
         NMS.rx b = py_int (inject_Z (py_int (Yolo4.cx d * W)) - inject_Z (NMS.rw b) / 2) /\
         NMS.ry b = py_int (inject_Z (py_int (Yolo4.cy d * H)) - inject_Z (NMS.rh b) / 2) /\
         (0 <= Yolo4.bw d * W -> inject_Z (NMS.rw b) <= Yolo4.bw d * W < inject_Z (NMS.rw b) + 1)%Q /\
         (0 <= Yolo4.bh d * H -> inject_Z (NMS.rh b) <= Yolo4.bh d * H < inject_Z (NMS.rh b) + 1)%Q
     | None => True
     end) /\
  Yolo4.candidate ["car"] (Yolo4.mkFrame 100 100 [])
    (Yolo4.mkRaw (1#2) (1#2) (1#5) (1#5) (9#10) [])
  = Some (NMS.mkRect 40 40 20 20, 9#10, 0%nat).
Proof.
  split; [|reflexivity].
  intros classes fr d. unfold Yolo4.candidate.
  destruct (_ && _ && _); simpl; [|exact I].
  repeat split; try reflexivity; try (apply py_int_nonneg_bounds; assumption).
Qed.

Lemma C5_centerbox_normalization_witness :
  (0 <= (1#5) * inject_Z 100)%Q /\ (inject_Z 20 <= (1#5) * inject_Z 100 < inject_Z 20 + 1)%Q.
Proof.
  pose proof (proj1 C5_centerbox_normalization ["car"] (Yolo4.mkFrame 100 100 [])
                (Yolo4.mkRaw (1#2) (1#2) (1#5) (1#5) (9#10) [])) as H.
  rewrite (proj2 C5_centerbox_normalization) in H. cbv zeta in H. simpl in H.
  destruct H as (_ & _ & _ & _ & Hw & _).
  assert (H0 : (0 <= (1#5) * inject_Z 100)%Q) by (vm_compute; discriminate).
  split; [exact H0|exact (Hw H0)].
Defined.

(** C6: every sample is [round(confidence, 2)] and the four percentages
    [y/H*100], [x/W*100], [w/W*100], [h/H*100] each rounded to 2 decimals,
    of a counted detection, in all three loops; a box [x=10, y=20, w=30,
    h=40] on a frame 100 wide and 200 high gives left 10, top 10, width 30,
    height 20. *)
Theorem C6_sample_percentages :
  (forall names results,
     Forall (fun s => exists r b, In (r, b) (Ultra_stream results) /\
        s_confidence s = round2 (Ultra.conf b) /\
        s_bbox s = mkBBox (round2 (Ultra.y1 b / inject_Z (Ultra.shape0 r) * 100))
                          (round2 (Ultra.x1 b / inject_Z (Ultra.shape1 r) * 100))
                          (round2 ((Ultra.x2 b - Ultra.x1 b) / inject_Z (Ultra.shape1 r) * 100))
                          (round2 ((Ultra.y2 b - Ultra.y1 b) / inject_Z (Ultra.shape0 r) * 100)))%Q
       (sample_detections (Ultra.run_yolo_inference names results))) /\
  (forall classes frames,
     Forall (fun s => exists fr b c k, In (fr, (b, c, k)) (Yolo4_stream classes frames) /\
        s_confidence s = round2 c /\
        s_bbox s = mkBBox (round2 (inject_Z (NMS.ry b) / inject_Z (Yolo4.height_frame fr) * 100))
                          (round2 (inject_Z (NMS.rx b) / inject_Z (Yolo4.width_frame fr) * 100))
                          (round2 (inject_Z (NMS.rw b) / inject_Z (Yolo4.width_frame fr) * 100))
                          (round2 (inject_Z (NMS.rh b) / inject_Z (Yolo4.height_frame fr) * 100)))%Q
       (sample_detections (Yolo4.detect_cars classes frames))) /\
  (forall cw ch frames,
     let W := Sim.or_default cw 640 in let H := Sim.or_default ch 360 in
     match Sim.simulate_processing cw ch frames with
     | Some st =>
         Forall (fun s => exists d, In d (List.concat frames) /\
            s_confidence s = round2 (Sim.d_u d) /\
            s_bbox s = mkBBox (round2 (inject_Z (Sim.d_y d) / inject_Z H * 100))
                              (round2 (inject_Z (Sim.d_x d) / inject_Z W * 100))
                              (round2 (inject_Z (Sim.d_w d) / inject_Z W * 100))
                              (round2 (inject_Z (Sim.d_h d) / inject_Z H * 100)))%Q
           (sample_detections st)
     | None => True
     end) /\
  (forall classes c k,
     s_bbox (Yolo4.sample_of classes (Yolo4.mkFrame 200 100 []) (NMS.mkRect 10 20 30 40, c, k)) =
     mkBBox 10 10 30 20) /\
  (forall names c k,
     s_bbox (Ultra.sample_of names (Ultra.mkYResult 200 100 []) (Ultra.mkYBox k c 10 20 40 60)) =
     mkBBox 10 10 30 20).
Proof.
  split; [|split; [|split; [|split]]].
  - intros names results. destruct (Ultra_run_facts names results) as (_ & Hs & _).
    rewrite Hs. apply Forall_forall. intros s Hin.
    apply In_firstn_In, in_map_iff in Hin as ([r b] & <- & Hin).
    exists r, b. split; [exact Hin|split; reflexivity].
  - intros classes frames. destruct (Yolo4_run_facts classes frames) as (_ & _ & Hs & _).
    rewrite Hs. apply Forall_forall. intros s Hin.
    apply In_firstn_In, in_map_iff in Hin as ([fr [[b c] k]] & <- & Hin).
    exists fr, b, c, k. split; [exact Hin|split; reflexivity].
  - intros cw ch frames. cbv zeta.
    destruct (Sim.simulate_processing cw ch frames) as [st|] eqn:E; [|exact I].
    destruct (Sim_run_facts _ _ _ _ E) as (_ & _ & Hs & _).
    rewrite Hs. apply Forall_forall. intros s Hin.
    apply In_firstn_In, in_map_iff in Hin as (d & <- & Hin).
    exists d. split; [exact Hin|split; reflexivity].
  - intros. vm_compute. reflexivity.
  - intros. vm_compute. reflexivity.
Qed.

(** C7 does not hold: nothing clamps the percentages.  A row centred at
    [cx = 1/16] with width [1/4] on a 64x64 frame gives [x = -4], and the
    sample reports [left = -6.25]. *)
Lemma C7_counterexample_negative_left :
  ~ (forall classes frames,
       Forall (fun s => (0 <= top (s_bbox s) <= 100 /\ 0 <= left (s_bbox s) <= 100 /\
                         0 <= width (s_bbox s) <= 100 /\ 0 <= height (s_bbox s) <= 100)%Q)
         (sample_detections (Yolo4.detect_cars classes frames))).
Proof.
  intros Hall.
  specialize (Hall ["person"; "car"]
                [Yolo4.mkFrame 64 64 [Yolo4.mkRaw (1#16) (1#2) (1#4) (1#4) 0%Q [9#10]]]).
  vm_compute in Hall. apply Forall_inv in Hall.
  destruct Hall as (_ & [Hl _] & _). apply Hl. reflexivity.
Qed.

(** C7 (as amended): the percentages are the raw ratios rounded, not
    clamped: in [detect_cars] a box starting at least 1% of the frame width
    left of the frame reports [left <= -1], and one starting at least 1% of
    the frame height above it reports [top <= -1]. *)
Theorem C7_percentages_unclamped (classes : list string) (fr : Yolo4.frame)
    (b : NMS.rect) (c : Q) (k : nat) :
  (0 < Yolo4.width_frame fr -> 100 * NMS.rx b <= - Yolo4.width_frame fr ->
   (left (s_bbox (Yolo4.sample_of classes fr (b, c, k))) <= -1)%Q) /\
  (0 < Yolo4.height_frame fr -> 100 * NMS.ry b <= - Yolo4.height_frame fr ->
   (top (s_bbox (Yolo4.sample_of classes fr (b, c, k))) <= -1)%Q).
Proof.
  split; intros Hw Hx; simpl;
    pose proof (pct_le_neg1 _ _ Hw Hx) as Hp;
    (apply Qle_trans with (inject_Z (-100) / 100)%Q; [|vm_compute; discriminate]);
    apply round2_le; change (inject_Z (-100)) with (-100 # 1)%Q; lra.
Qed.

Lemma C7_percentages_unclamped_witness :
  (0 < 64 /\ 100 * (-4) <= - 64) /\
  (left (s_bbox (Yolo4.sample_of ["car"] (Yolo4.mkFrame 64 64 []) (NMS.mkRect (-4) (-4) 16 16, 9#10, 0%nat)))
     <= -1)%Q /\
  (top (s_bbox (Yolo4.sample_of ["car"] (Yolo4.mkFrame 64 64 []) (NMS.mkRect (-4) (-4) 16 16, 9#10, 0%nat)))
     <= -1)%Q.
Proof.
  split; [split; lia|].
  destruct (C7_percentages_unclamped ["car"] (Yolo4.mkFrame 64 64 []) (NMS.mkRect (-4) (-4) 16 16) (9#10) 0%nat)
    as [Hl Ht].
  split; [apply Hl|apply Ht]; simpl; lia.
Defined.

(* ================================================================= *)
(** ** Claims about the simulated detector *)

(** C10 does not hold for frames narrower than a box: [x] is drawn from
    [randint(0, max(0, width - w))], so on a 32-pixel-wide video a 40-pixel
    box starts at 0 and ends past the right edge. *)
Lemma C10_counterexample_box_outside :
  ~ (forall cw ch frames,
       let W := Sim.or_default cw 640 in let H := Sim.or_default ch 360 in
       Sim.valid_frames W H frames = true ->
       Forall (fun d => 0 <= Sim.d_x d /\ Sim.d_x d + Sim.d_w d <= W /\
                        0 <= Sim.d_y d /\ Sim.d_y d + Sim.d_h d <= H) (List.concat frames)).
Proof.
  intros Hall.
  specialize (Hall 32 32 [[Sim.mkDraw 0 (3#4) 40 40 0 0]] eq_refl).
  apply Forall_inv in Hall. vm_compute in Hall.
  destruct Hall as (_ & H & _). apply H. reflexivity.
Qed.

(** C10 (as amended): when the draws lie in the ranges [random] gives,
    the simulated run never fails, every frame adds 1 to 4 detections
    with confidence in [0.55, 0.95] and a box starting inside the frame
    that stays inside whenever the frame is at least as large as the box;
    so [n <= total_vehicles <= 4n] for [n] frames read, and 15 or more
    frames give phase green. *)
Theorem C10_simulated_run_bounds (cw ch : Z) (frames : list (list Sim.draw)) :
  Sim.valid_frames (Sim.or_default cw 640) (Sim.or_default ch 360) frames = true ->
  exists st, Sim.simulate_processing cw ch frames = Some st /\
    (List.length frames <= total st <= 4 * List.length frames)%nat /\
    ((15 <= List.length frames)%nat -> phase_of (total st) = "green") /\
    Forall (fun fr => 1 <= List.length fr <= 4)%nat frames /\
    Forall (fun d => (55#100 <= round2 (Sim.d_u d) <= 95#100)%Q /\
                     0 <= Sim.d_x d /\ Sim.d_x d + Sim.d_w d <= Z.max (Sim.or_default cw 640) (Sim.d_w d) /\
                     0 <= Sim.d_y d /\ Sim.d_y d + Sim.d_h d <= Z.max (Sim.or_default ch 360) (Sim.d_h d))
      (List.concat frames).
Proof.
  intros Hv.
  destruct (valid_frames_draws _ _ _ Hv) as [Hfr Hd].
  pose proof (valid_frames_length _ _ _ Hv) as Hlen.
  destruct (Sim_loop_some (Sim.or_default cw 640) (Sim.or_default ch 360) frames
              (mkAgg Sim.init_counts 0 []) eq_refl) as [st E].
  { apply Forall_forall. intros d Hin. rewrite Forall_forall in Hd.
    apply (valid_draw_facts _ _ _ (Hd d Hin)). }
  exists st. fold (Sim.simulate_processing cw ch frames) in E.
  destruct (Sim_run_facts _ _ _ _ E) as (_ & _ & _ & Ht).
  split; [exact E|]. split; [lia|]. split.
  - intros H15. unfold phase_of. destruct (Nat.leb_spec 15 (total st)); [reflexivity|lia].
  - split; [exact Hfr|]. apply Forall_forall. intros d Hin. rewrite Forall_forall in Hd.
    destruct (valid_draw_facts _ _ _ (Hd d Hin)) as (_ & Hc & H1 & H2 & H3 & H4).
    repeat split; tauto.
Qed.

Lemma C10_simulated_run_bounds_witness :
  Sim.valid_frames 640 360 [[Sim.mkDraw 2 (3#4) 50 50 10 10]] = true /\
  exists st, Sim.simulate_processing 640 360 [[Sim.mkDraw 2 (3#4) 50 50 10 10]] = Some st /\
    (1 <= total st <= 4)%nat.
Proof.
  split; [vm_compute; reflexivity|].
  destruct (C10_simulated_run_bounds 640 360 [[Sim.mkDraw 2 (3#4) 50 50 10 10]] eq_refl)
    as (st & E & Hb & _).
  exists st. split; [exact E|exact Hb].
Defined.

Lemma C3_samples_fifo_prefix_witness :
  (List.length (repeat (mkSample "car" (9#10) (mkBBox 0 0 0 0)) 20) <= 20)%nat /\
  push_sample (mkSample "bus" (3#5) (mkBBox 1 1 1 1)) (repeat (mkSample "car" (9#10) (mkBBox 0 0 0 0)) 20)
  = repeat (mkSample "car" (9#10) (mkBBox 0 0 0 0)) 20.
Proof.
  split; [simpl; lia|].
  destruct (proj2 (proj2 (proj2 C3_samples_fifo_prefix))
              (mkSample "bus" (3#5) (mkBBox 1 1 1 1)) (repeat (mkSample "car" (9#10) (mkBBox 0 0 0 0)) 20)
              ltac:(simpl; lia)) as (_ & _ & H).
  apply H. reflexivity.
Defined.

(* ================================================================= *)
(** ** Further properties of the loops: per-label counts *)

Ltac destruct_str_eqb :=
  repeat match goal with
         | |- context [String.eqb ?a ?b] => destruct (String.eqb_spec a b); subst
         end.

Lemma dict_get_set_incr (k l : string) (d : dict) :
  dict_get l (dict_set k (S (dict_get k d 0)) d) 0 =
  (dict_get l d 0 + (if String.eqb k l then 1 else 0))%nat.
Proof.
  induction d as [|[k' v] t IH]; simpl; [destruct_str_eqb; try congruence; reflexivity|].
  destruct (String.eqb_spec k k') as [<-|Hne]; simpl.
  - destruct_str_eqb; try congruence; lia.
  - rewrite IH. destruct_str_eqb; try congruence; lia.
Qed.

Lemma count_label_cons {X : Type} (lab : X -> string) (l : string) (x : X) (xs : list X) :
  count_label lab l (x :: xs) = ((if String.eqb (lab x) l then 1 else 0) + count_label lab l xs)%nat.
Proof. unfold count_label; simpl. destruct (String.eqb (lab x) l); reflexivity. Qed.

Lemma count_label_app {X : Type} (lab : X -> string) (l : string) (xs ys : list X) :
  count_label lab l (xs ++ ys) = (count_label lab l xs + count_label lab l ys)%nat.
Proof. unfold count_label. rewrite filter_app, length_app. reflexivity. Qed.

Lemma count_label_pos {X : Type} (lab : X -> string) (xs : list X) (x : X) :
  In x xs -> (1 <= count_label lab (lab x) xs)%nat.
Proof.
  intros H. unfold count_label.
  assert (Hin : In x (filter (fun y => String.eqb (lab y) (lab x)) xs))
    by (apply filter_In; split; [exact H|apply String.eqb_refl]).
  destruct (filter _ xs); [contradiction|simpl; lia].
Qed.

Lemma fold_count {X : Type} (f : agg -> X -> agg) (lab : X -> string) (Inv : agg -> Prop)
    (l : string) (xs : list X) :
  (forall st x, In x xs -> Inv st ->
     Inv (f st x) /\
     dict_get l (vehicle_counts (f st x)) 0 =
     (dict_get l (vehicle_counts st) 0 + (if String.eqb (lab x) l then 1 else 0))%nat) ->
  forall st, Inv st ->
  dict_get l (vehicle_counts (fold_left f xs st)) 0 =
  (dict_get l (vehicle_counts st) 0 + count_label lab l xs)%nat.
Proof.
  intros Hf; induction xs as [|x xs IH]; intros st Hi; simpl; [unfold count_label; simpl; lia|].
  destruct (Hf st x (or_introl eq_refl) Hi) as [Hi' Hget].
  rewrite IH; [|intros; apply Hf; auto; right; auto|exact Hi'].
  rewrite Hget, count_label_cons. lia.
Qed.

Lemma dict_keys_set_new (k : string) (v : nat) (d : dict) :
  dict_mem k d = false -> dict_keys (dict_set k v d) = dict_keys d ++ [k].
Proof.
  unfold dict_keys; induction d as [|[k' v'] t IH]; simpl; [reflexivity|].
  destruct (String.eqb k k'); simpl; [discriminate|intros H; rewrite IH; auto].
Qed.

Lemma dict_mem_In (k : string) (d : dict) : dict_mem k d = true <-> In k (dict_keys d).
Proof.
  rewrite dict_mem_keys, existsb_exists. split.
  - intros (x & Hx & E). apply String.eqb_eq in E. subst. exact Hx.
  - intros H. exists k. split; [exact H|apply String.eqb_refl].
Qed.

Lemma dict_get_absent (k : string) (d : dict) : dict_mem k d = false -> dict_get k d 0 = 0%nat.
Proof.
  induction d as [|[k' v] t IH]; simpl; [reflexivity|].
  destruct (String.eqb k k'); simpl; [discriminate|exact IH].
Qed.

Lemma dict_get_present_pos (k : string) (d : dict) :
  Forall (fun kv => 1 <= snd kv)%nat d -> dict_mem k d = true -> (1 <= dict_get k d 0)%nat.
Proof.
  induction d as [|[k' v] t IH]; simpl; [discriminate|].
  intros Hall. inversion Hall; subst.
  destruct (String.eqb k k'); simpl; [auto|intros H; apply IH; auto].
Qed.

Lemma dict_set_pos (k : string) (v : nat) (d : dict) :
  (1 <= v)%nat -> Forall (fun kv => 1 <= snd kv)%nat d -> Forall (fun kv => 1 <= snd kv)%nat (dict_set k v d).
Proof.
  intros Hv; induction d as [|[k' v'] t IH]; simpl; intros Hall; [repeat constructor; exact Hv|].
  inversion Hall; subst. destruct (String.eqb k k'); constructor; auto.
Qed.

Lemma NoDup_snoc {A : Type} (l : list A) (x : A) : NoDup l -> ~ In x l -> NoDup (l ++ [x]).
Proof.
  intros Hl Hx. apply (Permutation_NoDup (Permutation_cons_append l x)).
  constructor; assumption.
Qed.

Lemma dict_get_zero_all (l : string) (d : dict) :
  Forall (fun kv => snd kv = 0%nat) d -> dict_get l d 0 = 0%nat.
Proof.
  induction d as [|[k v] t IH]; simpl; [reflexivity|].
  intros Hall; inversion Hall; subst. destruct (String.eqb l k); simpl in *; auto.
Qed.

Lemma Yolo4_stream_In (classes : list string) (frames : list Yolo4.frame) fr c :
  In (fr, c) (Yolo4_stream classes frames) -> In c (Yolo4.frame_accepted classes fr).
Proof.
  unfold Yolo4_stream. intros Hin. apply in_concat in Hin as (l & Hl & Hin).
  apply in_map_iff in Hl as (fr' & <- & _).
  apply in_map_iff in Hin as (c' & E & Hc'). injection E as -> ->. exact Hc'.
Qed.

Lemma Sim_draw_get (w h : Z) (st st' : agg) (d : Sim.draw) (l : string) :
  Sim.draw_step w h st d = Some st' ->
  dict_keys (vehicle_counts st) = dict_keys Sim.init_counts ->
  dict_get l (vehicle_counts st') 0 =
  (dict_get l (vehicle_counts st) 0 + (if String.eqb (Sim_label d) l then 1 else 0))%nat.
Proof.
  unfold Sim.draw_step, Sim_label. intros Hs Hk. rewrite Hk in Hs.
  destruct (dict_mem _ _) eqn:Hm; [|discriminate].
  injection Hs as <-; simpl. apply dict_get_set_incr.
Qed.

Lemma Sim_frame_get (w h : Z) (l : string) (ds : list Sim.draw) : forall st st',
  Sim.frame_step w h st ds = Some st' ->
  dict_keys (vehicle_counts st) = dict_keys Sim.init_counts ->
  dict_get l (vehicle_counts st') 0 = (dict_get l (vehicle_counts st) 0 + count_label Sim_label l ds)%nat.
Proof.
  induction ds as [|d ds IH]; intros st st' Hs Hk; simpl in Hs.
  - injection Hs as <-. unfold count_label; simpl. lia.
  - destruct (Sim.draw_step w h st d) as [st1|] eqn:E; [|discriminate].
    destruct (Sim_draw_step _ _ _ _ _ E Hk) as (Hk1 & _).
    rewrite (IH st1 st' Hs Hk1), (Sim_draw_get _ _ _ _ _ l E Hk), count_label_cons. lia.
Qed.

Lemma Sim_frame_keys (w h : Z) (ds : list Sim.draw) : forall st st',
  Sim.frame_step w h st ds = Some st' ->
  dict_keys (vehicle_counts st) = dict_keys Sim.init_counts ->
  dict_keys (vehicle_counts st') = dict_keys Sim.init_counts.
Proof.
  induction ds as [|d ds IH]; intros st st' Hs Hk; simpl in Hs; [congruence|].
  destruct (Sim.draw_step w h st d) as [st1|] eqn:E; [|discriminate].
  destruct (Sim_draw_step _ _ _ _ _ E Hk) as (Hk1 & _). exact (IH st1 st' Hs Hk1).
Qed.

Lemma Sim_loop_get (w h : Z) (l : string) (frs : list (list Sim.draw)) : forall st st',
  Sim.frames_loop w h st frs = Some st' ->
  dict_keys (vehicle_counts st) = dict_keys Sim.init_counts ->
  dict_get l (vehicle_counts st') 0 =
  (dict_get l (vehicle_counts st) 0 + count_label Sim_label l (List.concat frs))%nat.
Proof.
  induction frs as [|fr frs IH]; intros st st' Hs Hk; simpl in Hs.
  - injection Hs as <-. unfold count_label; simpl. lia.
  - destruct (Sim.frame_step w h st fr) as [st1|] eqn:E; [|discriminate].
    pose proof (Sim_frame_keys _ _ _ _ _ E Hk) as Hk1.
    simpl. rewrite (IH st1 st' Hs Hk1), (Sim_frame_get _ _ l _ _ _ E Hk), count_label_app. lia.
Qed.

Lemma Ultra_counts (names : nat -> string) (results : list Ultra.yresult) (l : string) :
  let c := vehicle_counts (Ultra.run_yolo_inference names results) in
  dict_get l c 0 = count_label (fun p => names (Ultra.cls (snd p))) l (Ultra_stream results) /\
  NoDup (dict_keys c) /\ Forall (fun kv => 1 <= snd kv)%nat c.
Proof.
  cbv zeta. unfold Ultra.run_yolo_inference. rewrite Ultra_run_stream.
  set (f := fun st p => Ultra.box_step names (fst p) st (snd p)).
  set (Inv := fun st : agg => NoDup (dict_keys (vehicle_counts st)) /\
                              Forall (fun kv => 1 <= snd kv)%nat (vehicle_counts st)).
  assert (H0 : Inv (mkAgg [] 0 [])) by (split; constructor).
  assert (Hstep : forall st p, Inv st -> Inv (f st p)).
  { intros st [r b] [Hn Hp]. unfold f, Inv; simpl. split.
    - destruct (dict_mem (names (Ultra.cls b)) (vehicle_counts st)) eqn:Hm.
      + rewrite dict_keys_set by exact Hm. exact Hn.
      + rewrite dict_keys_set_new by exact Hm. apply NoDup_snoc; [exact Hn|].
        rewrite <- dict_mem_In, Hm. discriminate.
    - apply dict_set_pos; [lia|exact Hp]. }
  split.
  - rewrite (fold_count f (fun p => names (Ultra.cls (snd p))) Inv l); [simpl; lia| |exact H0].
    intros st [r b] _ Hi. split; [apply Hstep, Hi|]. unfold f; simpl. apply dict_get_set_incr.
  - apply (fold_left_inv Inv f); [intros; apply Hstep; auto|exact H0].
Qed.

Lemma Yolo4_counts (classes : list string) (frames : list Yolo4.frame) (l : string) :
  dict_get l (vehicle_counts (Yolo4.detect_cars classes frames)) 0 =
  count_label (fun p => nth (snd (snd p)) classes "") l (Yolo4_stream classes frames).
Proof.
  unfold Yolo4.detect_cars. rewrite Yolo4_run_stream.
  rewrite (fold_count (fun st p => Yolo4.det_step classes (fst p) st (snd p))
             (fun p => nth (snd (snd p)) classes "")
             (fun st => dict_keys (vehicle_counts st) = Yolo4.vehicle_labels) l); [| |reflexivity].
  - simpl vehicle_counts. rewrite (dict_get_zero_all l Yolo4.init_counts) by repeat constructor. reflexivity.
  - intros st [fr c] Hin Hk.
    assert (Hm : dict_mem (nth (snd c) classes "") (vehicle_counts st) = true).
    { rewrite dict_mem_keys, Hk. apply (accepted_label classes fr c).
      exact (Yolo4_stream_In _ _ _ _ Hin). }
    simpl. rewrite Hm. simpl. split; [rewrite dict_keys_set by exact Hm; exact Hk|].
    apply dict_get_set_incr.
Qed.

Lemma Sim_counts (cw ch : Z) (frames : list (list Sim.draw)) (st : agg) (l : string) :
  Sim.simulate_processing cw ch frames = Some st ->
  dict_get l (vehicle_counts st) 0 = count_label Sim_label l (List.concat frames).
Proof.
  unfold Sim.simulate_processing. intros H.
  rewrite (Sim_loop_get _ _ l _ _ _ H eq_refl). simpl vehicle_counts.
  rewrite (dict_get_zero_all l Sim.init_counts) by repeat constructor. reflexivity.
Qed.

Lemma Ultra_sample_label (names : nat -> string) (p : Ultra.yresult * Ultra.ybox) :
  s_label (Ultra.sample_of names (fst p) (snd p)) = names (Ultra.cls (snd p)).
Proof. reflexivity. Qed.

Lemma Yolo4_sample_label (classes : list string) (p : Yolo4.frame * (NMS.rect * Q * nat)) :
  s_label (Yolo4.sample_of classes (fst p) (snd p)) = nth (snd (snd p)) classes "".
Proof. destruct p as [fr [[b c] k]]. reflexivity. Qed.

Lemma samples_counted {X : Type} (g : X -> sample) (lab : X -> string) (xs : list X) (d : dict) :
  (forall x, s_label (g x) = lab x) ->
  (forall l, dict_get l d 0 = count_label lab l xs) ->
  Forall (fun s => 1 <= dict_get (s_label s) d 0)%nat (firstn 20 (map g xs)).
Proof.
  intros Hg Hd. apply Forall_forall. intros s Hs.
  apply In_firstn_In, in_map_iff in Hs as (x & <- & Hx).
  rewrite Hd, Hg. apply count_label_pos, Hx.
Qed.

Lemma firstn_firstn_app {A : Type} (n : nat) (l1 l2 : list A) :
  firstn n (firstn n l1 ++ l2) = firstn n (l1 ++ l2).
Proof.
  rewrite !firstn_app, firstn_firstn, length_firstn.
  replace (Nat.min n n) with n by lia.
  replace (n - Nat.min n (List.length l1))%nat with (n - List.length l1)%nat by lia.
  reflexivity.
Qed.

Lemma firstn_app_firstn2 {A : Type} (n : nat) (l1 l2 : list A) :
  firstn n (l1 ++ l2) = firstn n (firstn n l1 ++ firstn n l2).
Proof.
  rewrite !firstn_app, !firstn_firstn, length_firstn.
  replace (Nat.min n n) with n by lia.
  replace (n - Nat.min n (List.length l1))%nat with (n - List.length l1)%nat by lia.
  replace (Nat.min (n - List.length l1) n) with (n - List.length l1)%nat by lia.
  reflexivity.
Qed.

Lemma Ultra_stream_app (r1 r2 : list Ultra.yresult) :
  Ultra_stream (r1 ++ r2) = Ultra_stream r1 ++ Ultra_stream r2.
Proof. unfold Ultra_stream. rewrite map_app, concat_app. reflexivity. Qed.

Lemma Yolo4_stream_app (classes : list string) (f1 f2 : list Yolo4.frame) :
  Yolo4_stream classes (f1 ++ f2) = Yolo4_stream classes f1 ++ Yolo4_stream classes f2.
Proof. unfold Yolo4_stream. rewrite map_app, concat_app. reflexivity. Qed.

(** X1: in [run_yolo_inference] the count stored for a label is the number
    of boxes of that label in the stream; the keys are distinct, and a
    label is a key exactly when at least one box carries it (no zero
    entries, nothing counted that was not seen). *)
Theorem X1_ultra_counts_exact (names : nat -> string) (results : list Ultra.yresult) (l : string) :
  let c := vehicle_counts (Ultra.run_yolo_inference names results) in
  dict_get l c 0 = count_label (fun p => names (Ultra.cls (snd p))) l (Ultra_stream results) /\
  NoDup (dict_keys c) /\
  (In l (dict_keys c) <-> (0 < count_label (fun p => names (Ultra.cls (snd p))) l (Ultra_stream results))%nat).
Proof.
  cbv zeta. destruct (Ultra_counts names results l) as (Hg & Hn & Hp).
  split; [exact Hg|]. split; [exact Hn|]. rewrite <- Hg. split.
  - intros Hin. apply dict_mem_In in Hin. pose proof (dict_get_present_pos _ _ Hp Hin). lia.
  - intros Hlt. apply dict_mem_In. destruct (dict_mem l _) eqn:Hm; [reflexivity|].
    rewrite dict_get_absent in Hlt by exact Hm. lia.
Qed.

(** X2: a simulated run that completes reports all six labels of the
    initial dict, in their order (labels never drawn stay at 0), and the
    count of each label is the number of draws that picked it. *)
Theorem X2_sim_counts_exact (cw ch : Z) (frames : list (list Sim.draw)) (st : agg) :
  Sim.simulate_processing cw ch frames = Some st ->
  dict_keys (vehicle_counts st) = ["bicycle"; "bus"; "car"; "jeep"; "pedestrian"; "truck"]%string /\
  forall l, dict_get l (vehicle_counts st) 0 = count_label Sim_label l (List.concat frames).
Proof.
  intros H. split.
  - destruct (Sim_run_facts _ _ _ _ H) as (Hk & _). exact Hk.
  - intros l. exact (Sim_counts _ _ _ _ l H).
Qed.

(** X3: [detect_cars] always returns exactly the keys car, bus, truck,
    motorbike, in that order, and each count is the number of accepted
    detections whose class name is that label; every other label reads 0. *)
Theorem X3_yolo4_counts_exact (classes : list string) (frames : list Yolo4.frame) (l : string) :
  let c := vehicle_counts (Yolo4.detect_cars classes frames) in
  dict_keys c = ["car"; "bus"; "truck"; "motorbike"]%string /\
  dict_get l c 0 = count_label (fun p => nth (snd (snd p)) classes "") l (Yolo4_stream classes frames) /\
  (~ In l Yolo4.vehicle_labels -> dict_get l c 0 = 0%nat).
Proof.
  cbv zeta. destruct (Yolo4_run_facts classes frames) as (_ & Hk & _).
  split; [exact Hk|]. split; [apply Yolo4_counts|].
  intros Hl. destruct (dict_mem l (vehicle_counts (Yolo4.detect_cars classes frames))) eqn:Hm.
  - apply dict_mem_In in Hm. rewrite Hk in Hm. contradiction.
  - apply dict_get_absent, Hm.
Qed.

(** X4: every sample detection in a report has a label whose count in
    [vehicle_counts] is at least 1, in both reports of [process_video.py]
    and in the report of [yolov4_detect.py]. *)
Theorem X4_samples_are_counted :
  (forall lane pv yolo_available names results cw ch frames,
     match main_report lane pv yolo_available names results cw ch frames with
     | Some r => Forall (fun s => 1 <= dict_get (s_label s) (r_vehicle_counts r) 0)%nat
                   (r_sample_detections r)
     | None => True
     end) /\
  (forall lane pv classes frames,
     let r := Yolo4.yolo4_report lane pv classes frames in
     Forall (fun s => 1 <= dict_get (s_label s) (r_vehicle_counts r) 0)%nat (r_sample_detections r)).
Proof.
  split.
  - intros lane pv ya names results cw ch frames. unfold main_report.
    destruct ya.
    + simpl. destruct (Ultra_run_facts names results) as (_ & Hs & _). rewrite Hs.
      apply (samples_counted _ (fun p => names (Ultra.cls (snd p)))); [intros; reflexivity|].
      intros l. apply (Ultra_counts names results l).
    + destruct (Sim.simulate_processing cw ch frames) as [st|] eqn:E; [simpl|exact I].
      destruct (Sim_run_facts _ _ _ _ E) as (_ & _ & Hs & _). rewrite Hs.
      apply (samples_counted _ Sim_label); [intros; reflexivity|].
      intros l. apply (Sim_counts _ _ _ _ l E).
  - intros lane pv classes frames. cbv zeta. simpl.
    destruct (Yolo4_run_facts classes frames) as (_ & _ & Hs & _). rewrite Hs.
    apply (samples_counted _ (fun p => nth (snd (snd p)) classes "")); [apply Yolo4_sample_label|].
    intros l. apply Yolo4_counts.
Qed.

(** X5: [detect_cars] over two frame sequences played one after the other
    composes: totals and per-label counts add up, and the samples are the
    first 20 of the first run's samples followed by the second run's. *)
Theorem X5_yolo4_runs_compose (classes : list string) (f1 f2 : list Yolo4.frame) (l : string) :
  let st := Yolo4.detect_cars classes (f1 ++ f2) in
  let s1 := Yolo4.detect_cars classes f1 in
  let s2 := Yolo4.detect_cars classes f2 in
  total st = (total s1 + total s2)%nat /\
  dict_get l (vehicle_counts st) 0 = (dict_get l (vehicle_counts s1) 0 + dict_get l (vehicle_counts s2) 0)%nat /\
  sample_detections st = firstn 20 (sample_detections s1 ++ sample_detections s2).
Proof.
  cbv zeta.
  destruct (Yolo4_run_facts classes (f1 ++ f2)) as (_ & _ & Hs & Ht).
  destruct (Yolo4_run_facts classes f1) as (_ & _ & Hs1 & Ht1).
  destruct (Yolo4_run_facts classes f2) as (_ & _ & Hs2 & Ht2).
  rewrite Ht, Ht1, Ht2, !Yolo4_counts, Hs, Hs1, Hs2, Yolo4_stream_app.
  split; [apply length_app|]. split; [apply count_label_app|].
  rewrite map_app. apply firstn_app_firstn2.
Qed.

(** X6: the same composition for [run_yolo_inference] over two result
    streams: totals and per-label counts add up, and the samples are the
    first 20 of the two runs' samples in order. *)
Theorem X6_ultra_runs_compose (names : nat -> string) (r1 r2 : list Ultra.yresult) (l : string) :
  let st := Ultra.run_yolo_inference names (r1 ++ r2) in
  let s1 := Ultra.run_yolo_inference names r1 in
  let s2 := Ultra.run_yolo_inference names r2 in
  total st = (total s1 + total s2)%nat /\
  dict_get l (vehicle_counts st) 0 = (dict_get l (vehicle_counts s1) 0 + dict_get l (vehicle_counts s2) 0)%nat /\
  sample_detections st = firstn 20 (sample_detections s1 ++ sample_detections s2).
Proof.
  cbv zeta.
  destruct (Ultra_run_facts names (r1 ++ r2)) as (_ & Hs & Ht).
  destruct (Ultra_run_facts names r1) as (_ & Hs1 & Ht1).
  destruct (Ultra_run_facts names r2) as (_ & Hs2 & Ht2).
  destruct (Ultra_counts names (r1 ++ r2) l) as (Hg & _).
  destruct (Ultra_counts names r1 l) as (Hg1 & _).
  destruct (Ultra_counts names r2 l) as (Hg2 & _).
  rewrite Ht, Ht1, Ht2, Hg, Hg1, Hg2, Hs, Hs1, Hs2, Ultra_stream_app.
  split; [apply length_app|]. split; [apply count_label_app|].
  rewrite map_app. apply firstn_app_firstn2.
Qed.

(* ================================================================= *)
(** ** Further properties of the detector and of [NMSBoxes] *)

Lemma Qltb_false (a b : Q) : Qltb a b = false -> (b <= a)%Q.
Proof.
  unfold Qltb. intros H. apply Qle_bool_iff.
  destruct (Qle_bool b a); [reflexivity|discriminate].
Qed.

Lemma Qltb_of_lt (a b : Q) : (a < b)%Q -> Qltb a b = true.
Proof.
  unfold Qltb. intros H. destruct (Qle_bool b a) eqn:E; [|reflexivity].
  apply Qle_bool_iff in E. exfalso. exact (Qlt_not_le _ _ H E).
Qed.

Lemma skipn_next {A : Type} (L l : list A) (i : nat) (s : A) :
  skipn i L = s :: l -> skipn (S i) L = l.
Proof.
  revert L; induction i as [|i IH]; intros [|x L] H; simpl in *; try discriminate.
  - injection H as _ ->. reflexivity.
  - apply IH, H.
Qed.

Lemma argmax_from_max (L : list Q) (l : list Q) : forall i bi b,
  skipn i L = l -> nth bi L 0%Q = b -> (forall j, (j < i)%nat -> (nth j L 0 <= b)%Q) ->
  forall j, (j < List.length L)%nat -> (nth j L 0 <= nth (Yolo4.argmax_from i bi b l) L 0)%Q.
Proof.
  induction l as [|s l IH]; intros i bi b Hsk Hb Hle j Hj; simpl.
  - rewrite Hb. apply Hle.
    assert (H0 : List.length (skipn i L) = 0%nat) by (rewrite Hsk; reflexivity).
    rewrite length_skipn in H0. lia.
  - assert (Hs : nth i L 0%Q = s) by (rewrite <- (Nat.add_0_r i), <- nth_skipn, Hsk; reflexivity).
    pose proof (skipn_next _ _ _ _ Hsk) as Hsk'.
    destruct (Qltb b s) eqn:E.
    + apply (IH (S i) i s Hsk' Hs); [|exact Hj]. intros j' Hj'.
      destruct (Nat.eq_dec j' i) as [->|Hne]; [rewrite Hs; apply Qle_refl|].
      apply Qle_trans with b; [apply Hle; lia|apply Qlt_le_weak, Qltb_lt, E].
    + apply (IH (S i) bi b Hsk' Hb); [|exact Hj]. intros j' Hj'.
      destruct (Nat.eq_dec j' i) as [->|Hne]; [rewrite Hs; apply Qltb_false, E|].
      apply Hle; lia.
Qed.

Lemma argmax_max (d : Yolo4.raw) :
  Forall (fun s => (s <= nth (Yolo4.argmax d) (Yolo4.scores d) 0)%Q) (Yolo4.scores d).
Proof.
  apply Forall_forall. intros s Hs. destruct (In_nth _ _ 0%Q Hs) as (j & Hj & <-).
  unfold Yolo4.argmax.
  apply (argmax_from_max (Yolo4.scores d) _ 1 0 (Yolo4.score0 d)); auto.
  intros j' Hj'. replace j' with 0%nat by lia. apply Qle_refl.
Qed.

Lemma candidates_length (classes : list string) (fr : Yolo4.frame) (l : list Yolo4.raw) :
  (List.length (Yolo4.candidates classes fr l) <= List.length l)%nat.
Proof.
  induction l as [|d l IH]; simpl; [lia|].
  destruct (Yolo4.candidate classes fr d); simpl; lia.
Qed.

Lemma frame_accepted_length (classes : list string) (fr : Yolo4.frame) :
  (List.length (Yolo4.frame_accepted classes fr) <= List.length (Yolo4.rows fr))%nat.
Proof.
  unfold Yolo4.frame_accepted. rewrite length_map.
  eapply Nat.le_trans; [apply filter_length_le|]. rewrite length_seq.
  apply candidates_length.
Qed.

Lemma insert_desc_top (p : nat * Q) (acc : list (nat * Q)) :
  match acc with [] => True | h :: t => Forall (fun q => (snd q <= snd h)%Q) t end ->
  match NMS.insert_desc p acc with [] => False | h :: t => Forall (fun q => (snd q <= snd h)%Q) t end.
Proof.
  destruct acc as [|h t]; simpl; intros H; [constructor|].
  destruct (Qltb (snd h) (snd p)) eqn:E.
  - apply Qltb_lt in E. constructor; [apply Qlt_le_weak, E|].
    eapply Forall_impl; [|exact H]. intros q Hq.
    apply Qle_trans with (snd h); [exact Hq|apply Qlt_le_weak, E].
  - apply Qltb_false in E.
    apply (Permutation_Forall (Permutation_sym (insert_desc_perm p t))). constructor; assumption.
Qed.

Lemma stable_sort_desc_top (l : list (nat * Q)) :
  match NMS.stable_sort_desc l with [] => True | h :: t => Forall (fun q => (snd q <= snd h)%Q) t end.
Proof.
  unfold NMS.stable_sort_desc.
  apply (fold_left_inv (fun acc : list (nat * Q) =>
           match acc with [] => True | h :: t => Forall (fun q => (snd q <= snd h)%Q) t end)); [|exact I].
  intros acc p _ H. pose proof (insert_desc_top p acc H) as H'.
  destruct (NMS.insert_desc p acc); [contradiction|exact H'].
Qed.

Lemma greedy_keeps (thr : Q) (boxes : list NMS.rect) (l : list (nat * Q)) : forall kept x,
  In x kept -> In x (NMS.greedy thr boxes kept l).
Proof.
  induction l as [|p l IH]; intros kept x H; simpl; [exact H|].
  destruct (forallb _ kept); apply IH; [apply in_or_app; left|]; exact H.
Qed.

Lemma greedy_nodup (thr : Q) (boxes : list NMS.rect) (l : list (nat * Q)) : forall kept,
  NoDup (kept ++ map fst l) -> NoDup (NMS.greedy thr boxes kept l).
Proof.
  induction l as [|p l IH]; intros kept H; simpl in *; [now rewrite app_nil_r in H|].
  destruct (forallb _ kept); apply IH.
  - rewrite <- app_assoc. exact H.
  - exact (NoDup_remove_1 _ _ _ H).
Qed.

Lemma NoDup_map_filter {A B : Type} (g : A -> B) (f : A -> bool) (l : list A) :
  NoDup (map g l) -> NoDup (map g (filter f l)).
Proof.
  induction l as [|x l IH]; simpl; intros H; [constructor|].
  inversion H as [|? ? Hx Hl]; subst.
  destruct (f x); simpl; [|apply IH, Hl].
  constructor; [|apply IH, Hl].
  intros Hin. apply Hx. apply in_map_iff in Hin as (y & E & Hy).
  apply filter_In in Hy as [Hy _]. rewrite <- E. apply in_map, Hy.
Qed.

Lemma max_score_index_nodup (keep : Q -> bool) (scores : list Q) :
  NoDup (map fst (NMS.max_score_index keep scores)).
Proof.
  unfold NMS.max_score_index.
  apply (Permutation_NoDup (Permutation_map fst (Permutation_sym (stable_sort_desc_perm _)))).
  apply NoDup_map_filter. rewrite map_fst_combine_seq. apply seq_NoDup.
Qed.

Lemma max_score_index_score (keep : Q -> bool) (scores : list Q) p :
  In p (NMS.max_score_index keep scores) -> snd p = nth (fst p) scores 0%Q.
Proof.
  unfold NMS.max_score_index. intros H.
  apply (Permutation_in _ (stable_sort_desc_perm _)) in H.
  apply filter_In in H as [H _]. destruct p as [i s].
  apply combine_seq_In in H as [_ Hn]. rewrite Nat.sub_0_r in Hn. simpl. symmetry. exact Hn.
Qed.

Lemma combine_seq_nth (l : list Q) : forall k i,
  (i < List.length l)%nat -> In (k + i, nth i l 0%Q)%nat (combine (seq k (List.length l)) l).
Proof.
  induction l as [|x l IH]; intros k i Hi; simpl in *; [lia|].
  destruct i as [|i]; [left; f_equal; lia|right].
  replace (k + S i)%nat with (S k + i)%nat by lia. apply IH. lia.
Qed.

Lemma rect_overlap_self (r : NMS.rect) :
  (0 < NMS.rw r)%Z -> (0 < NMS.rh r)%Z -> (NMS.rect_overlap r r == 1)%Q.
Proof.
  destruct r as [x y w h]. simpl. intros Hw Hh.
  unfold NMS.rect_overlap, NMS.inter_area, NMS.area. simpl.
  rewrite !Z.max_id, !Z.min_id.
  replace (x + w - x)%Z with w by ring. replace (y + h - y)%Z with h by ring.
  assert (Ha : (0 < w * h)%Z) by nia.
  replace (w <=? 0)%Z with false by (symmetry; apply Z.leb_gt; lia).
  replace (h <=? 0)%Z with false by (symmetry; apply Z.leb_gt; lia).
  replace (w * h + w * h <=? 0)%Z with false by (symmetry; apply Z.leb_gt; lia).
  simpl. replace (w * h + w * h - w * h)%Z with (w * h)%Z by ring.
  unfold Qdiv. apply Qmult_inv_r. intros E.
  apply Qeq_alt in E. unfold inject_Z, Qcompare in E. simpl in E.
  apply Z.compare_eq in E. lia.
Qed.

(** X7: a row [detect_cars] keeps as a candidate has a class id within
    [classes] naming car, bus, truck or motorbike, a confidence above 0.5,
    and that confidence is the row's highest class score: a row whose top
    class is not a vehicle is dropped even when a vehicle class scores
    above 0.5. *)
Theorem X7_yolo4_candidate_top_class (classes : list string) (fr : Yolo4.frame) (d : Yolo4.raw) :
  match Yolo4.candidate classes fr d with
  | Some (b, c, k) =>
      (k < List.length classes)%nat /\ In (nth k classes "") Yolo4.vehicle_labels /\
      (1#2 < c)%Q /\ c = nth k (Yolo4.scores d) 0%Q /\
      Forall (fun s => (s <= c)%Q) (Yolo4.scores d)
  | None => True
  end.
Proof.
  unfold Yolo4.candidate.
  destruct (Nat.ltb _ _ && _ && _) eqn:E; [|exact I].
  apply andb_true_iff in E as [E E3]. apply andb_true_iff in E as [E1 E2].
  apply Nat.ltb_lt in E1. apply Qltb_lt in E3.
  unfold Yolo4.str_in in E2. apply existsb_exists in E2 as (x & Hx & Ex).
  apply String.eqb_eq in Ex. rewrite <- Ex in Hx.
  repeat split; auto. apply argmax_max.
Qed.

(** X8: the indices [cv2.dnn.NMSBoxes] returns are distinct, each is a
    valid index into the scores, and each has a score strictly above the
    score threshold. *)
Theorem X8_nms_indices_valid (boxes : list NMS.rect) (scores : list Q) (sthr nthr : Q) :
  let res := NMS.NMSBoxes boxes scores sthr nthr in
  NoDup res /\ Forall (fun i => (i < List.length scores)%nat /\ (sthr < nth i scores 0)%Q) res.
Proof.
  cbv zeta. unfold NMS.NMSBoxes, NMS.nms_with. split.
  - apply greedy_nodup. apply max_score_index_nodup.
  - apply Forall_forall. intros i Hi.
    apply greedy_incl in Hi as [[]|Hi].
    apply in_map_iff in Hi as (p & <- & Hp).
    apply max_score_index_In in Hp as [H1 H2]. split; [exact H1|apply Qltb_lt, H2].
Qed.

(** X9: whenever some score passes the score threshold, [NMSBoxes] keeps
    at least one index, and one with a score at least as high as every
    passing score: the best detection is never suppressed. *)
Theorem X9_nms_keeps_best (boxes : list NMS.rect) (scores : list Q) (sthr nthr : Q) (i : nat) :
  (i < List.length scores)%nat -> (sthr < nth i scores 0)%Q ->
  exists j, In j (NMS.NMSBoxes boxes scores sthr nthr) /\ (nth i scores 0 <= nth j scores 0)%Q.
Proof.
  intros Hi Hs. unfold NMS.NMSBoxes, NMS.nms_with.
  set (keep := fun s => Qltb sthr s).
  assert (Hin : In (i, nth i scores 0%Q) (NMS.max_score_index keep scores)).
  { unfold NMS.max_score_index.
    apply (Permutation_in _ (Permutation_sym (stable_sort_desc_perm _))).
    apply filter_In. split; [exact (combine_seq_nth scores 0 i Hi)|].
    apply Qltb_of_lt, Hs. }
  pose proof (stable_sort_desc_top
                (filter (fun p => keep (snd p)) (combine (seq 0 (List.length scores)) scores))) as Htop.
  fold (NMS.max_score_index keep scores) in Htop.
  destruct (NMS.max_score_index keep scores) as [|h t] eqn:E; [contradiction|].
  exists (fst h). split.
  - simpl. apply greedy_keeps. left; reflexivity.
  - rewrite <- (max_score_index_score keep scores h) by (rewrite E; left; reflexivity).
    destruct Hin as [->|Hin]; [apply Qle_refl|].
    rewrite Forall_forall in Htop. exact (Htop _ Hin).
Qed.

(** X10: with an overlap threshold below 1, [NMSBoxes] never keeps two
    indices whose boxes are the same non-empty rectangle. *)
Theorem X10_nms_no_identical_boxes (boxes : list NMS.rect) (scores : list Q) (sthr nthr : Q) (i j : nat) :
  (nthr < 1)%Q ->
  In i (NMS.NMSBoxes boxes scores sthr nthr) -> In j (NMS.NMSBoxes boxes scores sthr nthr) -> i <> j ->
  (0 < NMS.rw (nth i boxes NMS.rect0))%Z -> (0 < NMS.rh (nth i boxes NMS.rect0))%Z ->
  nth i boxes NMS.rect0 <> nth j boxes NMS.rect0.
Proof.
  intros Ht Hi Hj Hij Hw Hh E.
  unfold NMS.NMSBoxes, NMS.nms_with in Hi, Hj.
  pose proof (greedy_distinct nthr boxes _ i j Hi Hj Hij) as Hok.
  unfold ov_ok in Hok. rewrite <- E in Hok. apply Qle_bool_iff in Hok.
  rewrite (rect_overlap_self _ Hw Hh) in Hok.
  exact (Qlt_not_le _ _ Ht Hok).
Qed.

(** X11: [detect_cars] never counts more detections than the network
    produced rows: each frame contributes at most as many as its rows. *)
Theorem X11_yolo4_total_le_rows (classes : list string) (frames : list Yolo4.frame) :
  (total (Yolo4.detect_cars classes frames) <=
   list_sum (map (fun fr => List.length (Yolo4.rows fr)) frames))%nat.
Proof.
  destruct (Yolo4_run_facts classes frames) as (_ & _ & _ & Ht). rewrite Ht. clear Ht.
  unfold Yolo4_stream. rewrite length_concat, map_map.
  induction frames as [|fr frs IH]; simpl; [lia|].
  rewrite length_map. pose proof (frame_accepted_length classes fr). lia.
Qed.

(** X12: when no two boxes overlap by more than the overlap threshold,
    [NMSBoxes] suppresses nothing: every index whose score passes the
    score threshold is returned. *)
Theorem X12_nms_separated_all_kept (boxes : list NMS.rect) (scores : list Q) (sthr nthr : Q) :
  (forall i j, (i < List.length scores)%nat -> (j < List.length scores)%nat -> i <> j ->
     (NMS.rect_overlap (nth i boxes NMS.rect0) (nth j boxes NMS.rect0) <= nthr)%Q) ->
  forall i, (i < List.length scores)%nat -> (sthr < nth i scores 0)%Q ->
  In i (NMS.NMSBoxes boxes scores sthr nthr).
Proof.
  intros Hsep i Hi Hs. unfold NMS.NMSBoxes, NMS.nms_with.
  rewrite (greedy_all nthr boxes _ []); simpl.
  - assert (Hin : In (i, nth i scores 0%Q) (NMS.max_score_index (fun s => Qltb sthr s) scores)).
    { unfold NMS.max_score_index.
      apply (Permutation_in _ (Permutation_sym (stable_sort_desc_perm _))).
      apply filter_In. split; [exact (combine_seq_nth scores 0 i Hi)|]. apply Qltb_of_lt, Hs. }
    exact (in_map fst _ _ Hin).
  - apply max_score_index_nodup.
  - intros a b Ha Hb Hab. unfold ov_ok. apply Qle_bool_iff.
    apply in_map_iff in Ha as (pa & <- & Ha). apply in_map_iff in Hb as (pb & <- & Hb).
    apply (max_score_index_In (fun s => Qltb sthr s)) in Ha as [Ha _].
    apply (max_score_index_In (fun s => Qltb sthr s)) in Hb as [Hb _].
    apply Hsep; assumption.
Qed.

Lemma X2_sim_counts_exact_witness :
  exists st, Sim.simulate_processing 640 360 [[Sim.mkDraw 2 (3#4) 50 50 10 10]] = Some st /\
    dict_get "car" (vehicle_counts st) 0 = 1%nat.
Proof.
  exists (match Sim.simulate_processing 640 360 [[Sim.mkDraw 2 (3#4) 50 50 10 10]] with
          | Some st => st | None => mkAgg [] 0 [] end).
  split; [vm_compute; reflexivity|].
  destruct (X2_sim_counts_exact 640 360 [[Sim.mkDraw 2 (3#4) 50 50 10 10]]
              (match Sim.simulate_processing 640 360 [[Sim.mkDraw 2 (3#4) 50 50 10 10]] with
               | Some st => st | None => mkAgg [] 0 [] end) ltac:(vm_compute; reflexivity)) as [_ Hc].
  rewrite Hc. vm_compute. reflexivity.
Defined.

Lemma X9_nms_keeps_best_witness :
  (1 < List.length [9#10; 8#10])%nat /\ (1#2 < nth 1 [9#10; 8#10] 0)%Q /\
  exists j, In j (NMS.NMSBoxes [NMS.mkRect 0 0 10 10; NMS.mkRect 2 2 10 10] [9#10; 8#10] (1#2) (2#5)) /\
    (nth 1 [9#10; 8#10] 0 <= nth j [9#10; 8#10] 0)%Q.
Proof.
  split; [simpl; lia|]. split; [vm_compute; reflexivity|].
  apply (X9_nms_keeps_best [NMS.mkRect 0 0 10 10; NMS.mkRect 2 2 10 10] [9#10; 8#10] (1#2) (2#5) 1);
    [simpl; lia|vm_compute; reflexivity].
Defined.

Lemma X10_nms_no_identical_boxes_witness :
  (2#5 < 1)%Q /\
  In 0%nat (NMS.NMSBoxes [NMS.mkRect 0 0 10 10; NMS.mkRect 100 100 10 10] [9#10; 8#10] (1#2) (2#5)) /\
  In 1%nat (NMS.NMSBoxes [NMS.mkRect 0 0 10 10; NMS.mkRect 100 100 10 10] [9#10; 8#10] (1#2) (2#5)) /\
  nth 0 [NMS.mkRect 0 0 10 10; NMS.mkRect 100 100 10 10] NMS.rect0 <>
  nth 1 [NMS.mkRect 0 0 10 10; NMS.mkRect 100 100 10 10] NMS.rect0.
Proof.
  assert (E : NMS.NMSBoxes [NMS.mkRect 0 0 10 10; NMS.mkRect 100 100 10 10] [9#10; 8#10] (1#2) (2#5)
              = 0%nat :: 1%nat :: nil) by (vm_compute; reflexivity).
  split; [vm_compute; reflexivity|]. rewrite E.
  split; [left; reflexivity|]. split; [right; left; reflexivity|].
  apply (X10_nms_no_identical_boxes [NMS.mkRect 0 0 10 10; NMS.mkRect 100 100 10 10] [9#10; 8#10]
           (1#2) (2#5) 0 1); [vm_compute; reflexivity|rewrite E; left; reflexivity
           |rewrite E; right; left; reflexivity|discriminate|simpl; lia|simpl; lia].
Defined.

Lemma X12_nms_separated_all_kept_witness :
  (1 < List.length [9#10; 8#10])%nat /\ (1#2 < nth 1 [9#10; 8#10] 0)%Q /\
  In 1%nat (NMS.NMSBoxes [NMS.mkRect 0 0 10 10; NMS.mkRect 100 100 10 10] [9#10; 8#10] (1#2) (2#5)).
Proof.
  split; [simpl; lia|]. split; [vm_compute; reflexivity|].
  apply (X12_nms_separated_all_kept [NMS.mkRect 0 0 10 10; NMS.mkRect 100 100 10 10] [9#10; 8#10]
           (1#2) (2#5)); [|simpl; lia|vm_compute; reflexivity].
  intros i j Hi Hj Hij. simpl in Hi, Hj.
  destruct i as [|[|i]]; [|destruct j as [|[|j]]|lia]; [destruct j as [|[|j]]| | | ];
    try lia; vm_compute; discriminate.
Defined.
